(** * Synchronisation primitives: atomic wrappers and the instrumented mutex

    A shallow embedding of [util/atomic.h] (the [RelaxedAtomic] and
    [AcqRelAtomic] wrappers around [std::atomic]) and of
    [monitoring/instrumented_mutex.cc] ([InstrumentedMutex] and
    [InstrumentedCondVar]), with the properties the specification states
    about them.

    Integers of the sources are [Z]; a wrap-around is written out where the
    source computes in a fixed width. *)

From Stdlib Require Import ZArith List Bool String Lia.
Import ListNotations.
Open Scope Z_scope.

(* ================================================================== *)
(** * util/atomic.h *)
(* ================================================================== *)

Module Atomic.

(** [std::memory_order].  The wrappers fix it per method; it has no effect
    on the value a single thread reads or writes. *)
Inductive memory_order : Type :=
| memory_order_relaxed
| memory_order_acquire
| memory_order_release
| memory_order_acq_rel.

(** The template parameter [T]: a scalar with the comparison
    [compare_exchange_*] performs and the arithmetic the [fetch_*] members
    use.  [t_zero] is [T{}], the default initial value. *)
Class AtomicValue (T : Type) : Type := {
  t_zero : T;
  t_eqb : T -> T -> bool;
  t_eqb_spec : forall x y, reflect (x = y) (t_eqb x y);
  t_add : T -> T -> T;
  t_sub : T -> T -> T;
  t_and : T -> T -> T;
  t_or : T -> T -> T;
  t_xor : T -> T -> T
}.

(** Unsigned integers of [w] bits, wrapping. *)
Definition wrap (w : Z) (z : Z) : Z := z mod 2 ^ w.

#[export] Instance uint_AtomicValue (w : Z) : AtomicValue Z := {
  t_zero := 0;
  t_eqb := Z.eqb;
  t_eqb_spec := Z.eqb_spec;
  t_add := fun x y => wrap w (x + y);
  t_sub := fun x y => wrap w (x - y);
  t_and := Z.land;
  t_or := Z.lor;
  t_xor := Z.lxor
}.

Section Cell.

Context {T : Type} `{AtomicValue T}.

(** ** [std::atomic<T>], on one thread

    The member functions the wrappers call, as the C++ standard gives them
    for a single thread: a read-modify-write returns the value held before
    it.  [compare_exchange_weak] may fail although the comparison succeeds;
    [spurious] says whether this call does.  The results of the two
    compare-exchange members are (returned flag, [expected] after the call,
    cell after the call): [expected] is passed by reference. *)
Record atomic : Type := mk_atomic { contents : T }.

Definition atomic_store (a : atomic) (desired : T) (mo : memory_order)
  : atomic := mk_atomic desired.

Definition atomic_load (a : atomic) (mo : memory_order) : T := contents a.

Definition atomic_exchange (a : atomic) (desired : T) (mo : memory_order)
  : T * atomic := (contents a, mk_atomic desired).

Definition compare_exchange_strong (a : atomic) (expected desired : T)
    (mo : memory_order) : bool * T * atomic :=
  if t_eqb (contents a) expected
  then (true, expected, mk_atomic desired)
  else (false, contents a, a).

Definition compare_exchange_weak (spurious : bool) (a : atomic)
    (expected desired : T) (mo : memory_order) : bool * T * atomic :=
  if t_eqb (contents a) expected && negb spurious
  then (true, expected, mk_atomic desired)
  else (false, contents a, a).

Definition fetch_op (f : T -> T -> T) (a : atomic) (operand : T)
    (mo : memory_order) : T * atomic :=
  (contents a, mk_atomic (f (contents a) operand)).

Definition fetch_add := fetch_op t_add.
Definition fetch_sub := fetch_op t_sub.
Definition fetch_and := fetch_op t_and.
Definition fetch_or := fetch_op t_or.
Definition fetch_xor := fetch_op t_xor.

(** ** [RelaxedAtomic<T>] *)
Record RelaxedAtomic : Type := mk_RelaxedAtomic { v_ : atomic }.

Definition RelaxedAtomic_new (initial : T) : RelaxedAtomic :=
  mk_RelaxedAtomic (mk_atomic initial).

(** The constructor's default argument, [T initial = {}]. *)
Definition RelaxedAtomic_default : RelaxedAtomic := RelaxedAtomic_new t_zero.

Definition StoreRelaxed (desired : T) (c : RelaxedAtomic) : RelaxedAtomic :=
  mk_RelaxedAtomic (atomic_store (v_ c) desired memory_order_relaxed).

Definition LoadRelaxed (c : RelaxedAtomic) : T :=
  atomic_load (v_ c) memory_order_relaxed.

Definition lift_cas (r : bool * T * atomic) : bool * T * RelaxedAtomic :=
  let '(ok, expected, a) := r in (ok, expected, mk_RelaxedAtomic a).

Definition lift_rmw (r : T * atomic) : T * RelaxedAtomic :=
  let '(old, a) := r in (old, mk_RelaxedAtomic a).

Definition CasWeakRelaxed (spurious : bool) (expected desired : T)
    (c : RelaxedAtomic) : bool * T * RelaxedAtomic :=
  lift_cas (compare_exchange_weak spurious (v_ c) expected desired
              memory_order_relaxed).

Definition CasStrongRelaxed (expected desired : T) (c : RelaxedAtomic)
  : bool * T * RelaxedAtomic :=
  lift_cas (compare_exchange_strong (v_ c) expected desired
              memory_order_relaxed).

Definition ExchangeRelaxed (desired : T) (c : RelaxedAtomic)
  : T * RelaxedAtomic :=
  lift_rmw (atomic_exchange (v_ c) desired memory_order_relaxed).

Definition FetchAddRelaxed (operand : T) (c : RelaxedAtomic)
  : T * RelaxedAtomic :=
  lift_rmw (fetch_add (v_ c) operand memory_order_relaxed).

Definition FetchSubRelaxed (operand : T) (c : RelaxedAtomic)
  : T * RelaxedAtomic :=
  lift_rmw (fetch_sub (v_ c) operand memory_order_relaxed).

Definition FetchAndRelaxed (operand : T) (c : RelaxedAtomic)
  : T * RelaxedAtomic :=
  lift_rmw (fetch_and (v_ c) operand memory_order_relaxed).

Definition FetchOrRelaxed (operand : T) (c : RelaxedAtomic)
  : T * RelaxedAtomic :=
  lift_rmw (fetch_or (v_ c) operand memory_order_relaxed).

Definition FetchXorRelaxed (operand : T) (c : RelaxedAtomic)
  : T * RelaxedAtomic :=
  lift_rmw (fetch_xor (v_ c) operand memory_order_relaxed).

(** ** [AcqRelAtomic<T>]

    Publicly derived from [RelaxedAtomic<T>]: the same storage [v_], and
    every relaxed method stays available on it. *)
Definition AcqRelAtomic : Type := RelaxedAtomic.

Definition AcqRelAtomic_new (initial : T) : AcqRelAtomic :=
  RelaxedAtomic_new initial.

Definition AcqRelAtomic_default : AcqRelAtomic := AcqRelAtomic_new t_zero.

Definition Store (desired : T) (c : AcqRelAtomic) : AcqRelAtomic :=
  mk_RelaxedAtomic (atomic_store (v_ c) desired memory_order_release).

Definition Load (c : AcqRelAtomic) : T :=
  atomic_load (v_ c) memory_order_acquire.

Definition CasWeak (spurious : bool) (expected desired : T)
    (c : AcqRelAtomic) : bool * T * AcqRelAtomic :=
  lift_cas (compare_exchange_weak spurious (v_ c) expected desired
              memory_order_acq_rel).

Definition CasStrong (expected desired : T) (c : AcqRelAtomic)
  : bool * T * AcqRelAtomic :=
  lift_cas (compare_exchange_strong (v_ c) expected desired
              memory_order_acq_rel).

Definition Exchange (desired : T) (c : AcqRelAtomic) : T * AcqRelAtomic :=
  lift_rmw (atomic_exchange (v_ c) desired memory_order_acq_rel).

Definition FetchAdd (operand : T) (c : AcqRelAtomic) : T * AcqRelAtomic :=
  lift_rmw (fetch_add (v_ c) operand memory_order_acq_rel).

Definition FetchSub (operand : T) (c : AcqRelAtomic) : T * AcqRelAtomic :=
  lift_rmw (fetch_sub (v_ c) operand memory_order_acq_rel).

Definition FetchAnd (operand : T) (c : AcqRelAtomic) : T * AcqRelAtomic :=
  lift_rmw (fetch_and (v_ c) operand memory_order_acq_rel).

Definition FetchOr (operand : T) (c : AcqRelAtomic) : T * AcqRelAtomic :=
  lift_rmw (fetch_or (v_ c) operand memory_order_acq_rel).

Definition FetchXor (operand : T) (c : AcqRelAtomic) : T * AcqRelAtomic :=
  lift_rmw (fetch_xor (v_ c) operand memory_order_acq_rel).

(** Projections of a compare-and-swap result. *)
Definition cas_ok (r : bool * T * RelaxedAtomic) : bool := fst (fst r).
Definition cas_expected (r : bool * T * RelaxedAtomic) : T := snd (fst r).
Definition cas_cell (r : bool * T * RelaxedAtomic) : RelaxedAtomic := snd r.

(** The four compare-and-swap methods of the two classes: the weak ones
    with the flag of the attempt, the strong ones without. *)
Inductive CasMethod : Type :=
| ViaCasWeakRelaxed (spurious : bool)
| ViaCasStrongRelaxed
| ViaCasWeak (spurious : bool)
| ViaCasStrong.

Definition cas (how : CasMethod) (expected desired : T) (c : RelaxedAtomic)
  : bool * T * RelaxedAtomic :=
  match how with
  | ViaCasWeakRelaxed sp => CasWeakRelaxed sp expected desired c
  | ViaCasStrongRelaxed => CasStrongRelaxed expected desired c
  | ViaCasWeak sp => CasWeak sp expected desired c
  | ViaCasStrong => CasStrong expected desired c
  end.

(** ** Single-threaded programs over a relaxed cell *)

(** One call on a [RelaxedAtomic<T>].  A weak compare-and-swap carries the
    flag saying whether this attempt fails spuriously. *)
Inductive Op : Type :=
| OpStore (desired : T)
| OpLoad
| OpExchange (desired : T)
| OpFetchAdd (operand : T)
| OpFetchSub (operand : T)
| OpFetchAnd (operand : T)
| OpFetchOr (operand : T)
| OpFetchXor (operand : T)
| OpCasWeak (spurious : bool) (expected desired : T)
| OpCasStrong (expected desired : T).

(** What a call hands back to its caller. *)
Inductive Ret : Type :=
| RetVoid
| RetValue (v : T)
| RetCas (ok : bool) (expected : T).

Definition ret_cas (r : bool * T * RelaxedAtomic) : Ret * RelaxedAtomic :=
  (RetCas (cas_ok r) (cas_expected r), cas_cell r).

Definition ret_value (r : T * RelaxedAtomic) : Ret * RelaxedAtomic :=
  (RetValue (fst r), snd r).

(** The call, dispatched to the wrapper's method. *)
Definition call (op : Op) (c : RelaxedAtomic) : Ret * RelaxedAtomic :=
  match op with
  | OpStore d => (RetVoid, StoreRelaxed d c)
  | OpLoad => (RetValue (LoadRelaxed c), c)
  | OpExchange d => ret_value (ExchangeRelaxed d c)
  | OpFetchAdd o => ret_value (FetchAddRelaxed o c)
  | OpFetchSub o => ret_value (FetchSubRelaxed o c)
  | OpFetchAnd o => ret_value (FetchAndRelaxed o c)
  | OpFetchOr o => ret_value (FetchOrRelaxed o c)
  | OpFetchXor o => ret_value (FetchXorRelaxed o c)
  | OpCasWeak sp e d => ret_cas (CasWeakRelaxed sp e d c)
  | OpCasStrong e d => ret_cas (CasStrongRelaxed e d c)
  end.

(** Runs a program; after each call it notes what the call returned and
    the value the cell is then observed to hold. *)
Fixpoint run (ops : list Op) (c : RelaxedAtomic) : list (Ret * T) :=
  match ops with
  | [] => []
  | op :: rest =>
      let (r, c') := call op c in
      (r, LoadRelaxed c') :: run rest c'
  end.

(** Sequential semantics, following the specification's wording: the cell
    is an ordinary variable [x] of type [T]; a store or an exchange
    overwrites it, a fetch-op replaces it by the result of the arithmetic
    and returns the prior value, and a compare-and-swap replaces it by
    [desired] when it equals [expected] and otherwise hands the current
    value back in [expected]. *)
Definition seq_call (op : Op) (x : T) : Ret * T :=
  match op with
  | OpStore d => (RetVoid, d)
  | OpLoad => (RetValue x, x)
  | OpExchange d => (RetValue x, d)
  | OpFetchAdd o => (RetValue x, t_add x o)
  | OpFetchSub o => (RetValue x, t_sub x o)
  | OpFetchAnd o => (RetValue x, t_and x o)
  | OpFetchOr o => (RetValue x, t_or x o)
  | OpFetchXor o => (RetValue x, t_xor x o)
  | OpCasWeak _ e d | OpCasStrong e d =>
      if t_eqb x e then (RetCas true e, d) else (RetCas false x, x)
  end.

Fixpoint seq_run (ops : list Op) (x : T) : list (Ret * T) :=
  match ops with
  | [] => []
  | op :: rest =>
      let (r, x') := seq_call op x in
      (r, x') :: seq_run rest x'
  end.

(** The weak compare-and-swaps of a program that are flagged to fail
    spuriously. *)
Definition fails_spuriously (op : Op) : bool :=
  match op with
  | OpCasWeak sp _ _ => sp
  | _ => false
  end.

Definition is_fetch_op (op : Op) : bool :=
  match op with
  | OpFetchAdd _ | OpFetchSub _ | OpFetchAnd _ | OpFetchOr _ | OpFetchXor _ =>
      true
  | _ => false
  end.

End Cell.

Arguments atomic T : clear implicits.
Arguments RelaxedAtomic T : clear implicits.
Arguments AcqRelAtomic T : clear implicits.
Arguments Op T : clear implicits.
Arguments Ret T : clear implicits.

(** The flag of the attempt a method makes; a strong one has none. *)
Definition method_spurious (how : CasMethod) : bool :=
  match how with
  | ViaCasWeakRelaxed sp | ViaCasWeak sp => sp
  | ViaCasStrongRelaxed | ViaCasStrong => false
  end.

(** The values of type [T] a call is passed, and those it hands back. *)
Definition op_arguments {T} (op : Op T) : list T :=
  match op with
  | OpLoad => []
  | OpStore d | OpExchange d => [d]
  | OpFetchAdd o | OpFetchSub o | OpFetchAnd o | OpFetchOr o | OpFetchXor o =>
      [o]
  | OpCasWeak _ e d | OpCasStrong e d => [e; d]
  end.

Definition ret_values {T} (r : Ret T) : list T :=
  match r with
  | RetVoid => []
  | RetValue v => [v]
  | RetCas _ e => [e]
  end.

(** The values an unsigned integer of [w] bits can hold. *)
Definition representable (w z : Z) : Prop := 0 <= z < 2 ^ w.

End Atomic.

(* ================================================================== *)
(** * monitoring/instrumented_mutex.cc *)
(* ================================================================== *)

Module Instrumented.

(** ** Collaborators *)

(** The perf-context counters the timer macro is given. *)
Inductive PerfMetric : Type :=
| db_mutex_lock_nanos
| db_condition_wait_nanos.

(** [ThreadStatus::StateType], the one value used here. *)
Inductive StateType : Type :=
| STATE_MUTEX_WAIT.

(** A [Statistics] object, as far as this file looks at it: which object it
    is, and the level [get_stats_level()] returns. *)
Record Statistics : Type := {
  stats_id : nat;
  get_stats_level : Z
}.

(** A [SystemClock] object; the file only tests the pointer. *)
Record SystemClock : Type := { clock_id : nat }.

(** One latency sample handed to a statistics sink. *)
Record Sample : Type := {
  sample_sink : Statistics;
  sample_metric : PerfMetric;
  sample_ticker : Z;
  sample_nanos : Z
}.

(** Why a timed wait on the raw condition variable came back. *)
Inductive Wakeup : Type :=
| DeadlineReached
| Signaled
| SpuriousWakeup.

(** What a call does to the world outside, in program order. *)
Inductive Event : Type :=
| EvTimerStart (metric : PerfMetric)
| EvRecord (s : Sample)
| EvStateDelay (st : StateType)
| EvSignalAll (cond : nat)
| EvYield
| EvSleep (micros : Z)
| EvMutexLock (mu : nat)
| EvCondWait (cond : nat)
| EvSyncPoint (name : string) (payload : Z)
| EvCondTimedWait (cond : nat) (abs_time_us : Z).

(** What the headers that are not among the sources fix for a build: the
    two conditional-compilation switches, the constants
    [kExceptTimeForMutex] and [DB_MUTEX_WAIT_MICROS], and the [Random]
    helper with the two members [LockInternal] calls.  The file is modelled
    in the build where [NPERF_CONTEXT] is not defined, the one in which
    [stats_for_report] exists. *)
Record Platform : Type := {
  NDEBUG : bool;
  COERCE_CONTEXT_SWITCH : bool;
  kExceptTimeForMutex : Z;
  DB_MUTEX_WAIT_MICROS : Z;
  Random : Type;
  Random_new : Z -> Random;
  OneIn : Z -> Random -> bool * Random;
  Uniform : Z -> Random -> Z * Random
}.

(** What the run-time environment decides: how long the raw primitives
    block (in nanoseconds, by the time of the call), how a timed wait ends,
    and the callbacks a test registered at named sync points. *)
Record Env : Type := {
  mutex_block_nanos : Z -> Z;
  cond_block_nanos : Z -> Z;
  timed_wait_outcome : Z -> Z -> Wakeup * Z;
  sync_point_callback : string -> option (Z -> Z)
}.

(** ** The objects of the file *)

Record InstrumentedCondVar : Type := {
  cond_ : nat;
  cv_stats_ : option Statistics;
  cv_clock_ : option SystemClock;
  cv_stats_code_ : Z
}.

Record InstrumentedMutex : Type := {
  mutex_ : nat;
  stats_ : option Statistics;
  clock_ : option SystemClock;
  stats_code_ : Z;
  bg_cv_ : option InstrumentedCondVar
}.

Definition wrap32 (z : Z) : Z := z mod 2 ^ 32.

Section Code.

Variable P : Platform.
Variable E : Env.

(** The state a call runs in: the clock's reading in nanoseconds and the
    thread-local generator of [LockInternal]. *)
Record World : Type := {
  now_nanos : Z;
  rnd : Random P
}.

(** The thread-local [Random rnd(301)] before its first use. *)
Definition initial_world : World :=
  {| now_nanos := 0; rnd := Random_new P 301 |}.

(** ** A small monad: state, and the events performed *)
Definition M (A : Type) : Type := World -> A * World * list Event.

Definition ret {A} (a : A) : M A := fun w => (a, w, []).

Definition bind {A B} (m : M A) (k : A -> M B) : M B :=
  fun w =>
    let '(a, w1, done1) := m w in
    let '(b, w2, done2) := k a w1 in
    (b, w2, done1 ++ done2).

Notation "x <- m ;; k" := (bind m (fun x => k))
  (at level 61, m at next level, right associativity).
Notation "m ;;; k" := (bind m (fun _ => k))
  (at level 61, right associativity).

Definition when (b : bool) (m : M unit) : M unit :=
  if b then m else ret tt.

Definition emit (e : Event) : M unit := fun w => (tt, w, [e]).

Definition elapse (nanos : Z) : M unit :=
  fun w => (tt, {| now_nanos := now_nanos w + nanos; rnd := rnd w |}, []).

Definition now : M Z := fun w => (now_nanos w, w, []).

Definition draw {A} (f : Random P -> A * Random P) : M A :=
  fun w => let (a, g) := f (rnd w) in
           (a, {| now_nanos := now_nanos w; rnd := g |}, []).

(** What a run returned, the state it ended in, and the events it
    performed, in program order. *)
Definition result {A} (r : A * World * list Event) : A := fst (fst r).
Definition final {A} (r : A * World * list Event) : World := snd (fst r).
Definition performed {A} (r : A * World * list Event) : list Event := snd r.

(** ** The calls the file makes *)

(** [port::Mutex::Lock]: blocks until the raw lock is available. *)
Definition port_Mutex_Lock (mu : nat) : M unit :=
  emit (EvMutexLock mu) ;;;
  t <- now ;;
  elapse (mutex_block_nanos E t).

(** [port::CondVar::Wait] *)
Definition port_CondVar_Wait (cond : nat) : M unit :=
  emit (EvCondWait cond) ;;;
  t <- now ;;
  elapse (cond_block_nanos E t).

(** Modelled from the spec: [port::CondVar::TimedWait], which is not among
    the sources.  It waits until signalled or until the absolute deadline,
    and returns whether the deadline was reached (true) rather than a
    signal or a spurious wakeup having occurred (false). *)
Definition port_CondVar_TimedWait (cond : nat) (abs_time_us : Z) : M bool :=
  emit (EvCondTimedWait cond abs_time_us) ;;;
  t <- now ;;
  let (why, nanos) := timed_wait_outcome E t abs_time_us in
  elapse nanos ;;;
  ret (match why with DeadlineReached => true | _ => false end).

Definition port_CondVar_SignalAll (cond : nat) : M unit :=
  emit (EvSignalAll cond).

(** [InstrumentedCondVar::SignalAll] *)
Definition SignalAll (cv : InstrumentedCondVar) : M unit :=
  port_CondVar_SignalAll (cond_ cv).

(** [ThreadStatusUtil::TEST_StateDelay]: advisory. *)
Definition TEST_StateDelay (st : StateType) : M unit :=
  emit (EvStateDelay st).

Definition sched_yield : M unit := emit EvYield.

(** [SystemClock::Default()->SleepForMicroseconds] *)
Definition SleepForMicroseconds (micros : Z) : M unit :=
  emit (EvSleep micros) ;;;
  elapse (micros * 1000).

(** Modelled from the spec: the macro [TEST_SYNC_POINT_CALLBACK], which is
    not among the sources.  The hook is consulted only when test
    instrumentation is compiled in; in a production build ([NDEBUG]) the
    macro is a no-op and the payload stays as it is.  Otherwise the named
    point is invoked with the payload; a callback registered for the name
    may rewrite the payload before the guarded operation proceeds, and
    nothing happens to it when none is registered.  The result is the
    payload afterwards. *)
Definition TEST_SYNC_POINT_CALLBACK (name : string) (payload : Z) : M Z :=
  if NDEBUG P then ret payload
  else
    emit (EvSyncPoint name payload) ;;;
    ret (match sync_point_callback E name with
         | Some callback => callback payload
         | None => payload
         end).

(** Modelled from the spec: the macro
    [PERF_CONDITIONAL_TIMER_FOR_MUTEX_GUARD(metric, condition, stats,
    ticker_type)], which is not among the sources.  When the condition
    holds and a statistics sink is given, it starts a latency measurement
    scoped to the call; on return the measurement, if started, is finalized
    and the elapsed nanoseconds are recorded into the sink under the metric,
    attributed to the ticker type.  [body] is the rest of the scope. *)
Definition PERF_CONDITIONAL_TIMER_FOR_MUTEX_GUARD {A} (metric : PerfMetric)
    (condition : bool) (stats : option Statistics) (ticker_type : Z)
    (body : M A) : M A :=
  match (if condition then stats else None) with
  | Some sink =>
      emit (EvTimerStart metric) ;;;
      start <- now ;;
      a <- body ;;
      stop <- now ;;
      emit (EvRecord {| sample_sink := sink; sample_metric := metric;
                        sample_ticker := ticker_type;
                        sample_nanos := stop - start |}) ;;;
      ret a
  | None => body
  end.

(** ** The file itself *)

Definition stats_for_report (clock : option SystemClock)
    (stats : option Statistics) : option Statistics :=
  match clock, stats with
  | Some _, Some s =>
      if get_stats_level s >? kExceptTimeForMutex P then Some s else None
  | _, _ => None
  end.

Definition LockInternal (m : InstrumentedMutex) : M unit :=
  when (negb (NDEBUG P)) (TEST_StateDelay STATE_MUTEX_WAIT) ;;;
  when (COERCE_CONTEXT_SWITCH P)
    (if stats_code_ m =? DB_MUTEX_WAIT_MICROS P then
       one_in_2 <- draw (OneIn P 2) ;;
       if one_in_2 then
         match bg_cv_ m with
         | Some cv => SignalAll cv
         | None => ret tt
         end ;;;
         sched_yield
       else
         u <- draw (Uniform P 11) ;;
         let sleep_us := wrap32 (u * 1000) in
         match bg_cv_ m with
         | Some cv => SignalAll cv
         | None => ret tt
         end ;;;
         SleepForMicroseconds sleep_us
     else ret tt) ;;;
  port_Mutex_Lock (mutex_ m).

Definition Lock (m : InstrumentedMutex) : M unit :=
  PERF_CONDITIONAL_TIMER_FOR_MUTEX_GUARD db_mutex_lock_nanos
    (stats_code_ m =? DB_MUTEX_WAIT_MICROS P)
    (stats_for_report (clock_ m) (stats_ m)) (stats_code_ m)
    (LockInternal m).

Definition WaitInternal (cv : InstrumentedCondVar) : M unit :=
  when (negb (NDEBUG P)) (TEST_StateDelay STATE_MUTEX_WAIT) ;;;
  port_CondVar_Wait (cond_ cv).

Definition Wait (cv : InstrumentedCondVar) : M unit :=
  PERF_CONDITIONAL_TIMER_FOR_MUTEX_GUARD db_condition_wait_nanos
    (cv_stats_code_ cv =? DB_MUTEX_WAIT_MICROS P)
    (stats_for_report (cv_clock_ cv) (cv_stats_ cv)) (cv_stats_code_ cv)
    (WaitInternal cv).

Definition TimedWaitInternal (cv : InstrumentedCondVar) (abs_time_us : Z)
  : M bool :=
  when (negb (NDEBUG P)) (TEST_StateDelay STATE_MUTEX_WAIT) ;;;
  abs_time_us' <- TEST_SYNC_POINT_CALLBACK
                    "InstrumentedCondVar::TimedWaitInternal" abs_time_us ;;
  port_CondVar_TimedWait (cond_ cv) abs_time_us'.

Definition TimedWait (cv : InstrumentedCondVar) (abs_time_us : Z) : M bool :=
  PERF_CONDITIONAL_TIMER_FOR_MUTEX_GUARD db_condition_wait_nanos
    (cv_stats_code_ cv =? DB_MUTEX_WAIT_MICROS P)
    (stats_for_report (cv_clock_ cv) (cv_stats_ cv)) (cv_stats_code_ cv)
    (TimedWaitInternal cv abs_time_us).

(** The sink a guard of this file measures into, if any: the condition and
    the statistics argument that [Lock], [Wait] and [TimedWait] pass to the
    timer macro, for a given tag, clock and sink. *)
Definition guard_sink (code : Z) (clock : option SystemClock)
    (stats : option Statistics) : option Statistics :=
  if code =? DB_MUTEX_WAIT_MICROS P then stats_for_report clock stats
  else None.

End Code.

(** ** Reading a run *)

Definition samples_of (tr : list Event) : list Sample :=
  flat_map (fun e => match e with EvRecord s => [s] | _ => [] end) tr.

(** Events of the latency measurement, as opposed to the primitive
    operations of the call. *)
Definition is_measurement (e : Event) : bool :=
  match e with
  | EvTimerStart _ | EvRecord _ => true
  | _ => false
  end.

Definition primitives_of (tr : list Event) : list Event :=
  filter (fun e => negb (is_measurement e)) tr.

Definition primitive_only (tr : list Event) : Prop :=
  forallb (fun e => negb (is_measurement e)) tr = true.

(** Events of the scheduling perturbation. *)
Definition is_perturbation (e : Event) : bool :=
  match e with
  | EvSignalAll _ | EvYield | EvSleep _ => true
  | _ => false
  end.

Definition is_raw_lock (e : Event) : bool :=
  match e with
  | EvMutexLock _ => true
  | _ => false
  end.

(** The events up to, and without, the first acquisition of a raw lock. *)
Fixpoint before_raw_lock (tr : list Event) : list Event :=
  match tr with
  | [] => []
  | e :: rest => if is_raw_lock e then [] else e :: before_raw_lock rest
  end.

(** The sync point and the timed wait on the raw condition variable. *)
Definition is_timed_wait_step (e : Event) : bool :=
  match e with
  | EvSyncPoint _ _ | EvCondTimedWait _ _ => true
  | _ => false
  end.

(** The advisory notification of the debug build, before blocking. *)
Definition state_delay_events (P : Platform) : list Event :=
  if NDEBUG P then [] else [EvStateDelay STATE_MUTEX_WAIT].

(** Signalling the lock's signal group, when it has one. *)
Definition signal_group (m : InstrumentedMutex) : list Event :=
  match bg_cv_ m with
  | Some cv => [EvSignalAll (cond_ cv)]
  | None => []
  end.

(** The same lock, or wait handle, under another statistics and clock
    configuration. *)
Definition with_config (m : InstrumentedMutex) (clock : option SystemClock)
    (stats : option Statistics) : InstrumentedMutex :=
  {| mutex_ := mutex_ m; stats_ := stats; clock_ := clock;
     stats_code_ := stats_code_ m; bg_cv_ := bg_cv_ m |}.

Definition cv_with_config (cv : InstrumentedCondVar)
    (clock : option SystemClock) (stats : option Statistics)
  : InstrumentedCondVar :=
  {| cond_ := cond_ cv; cv_stats_ := stats; cv_clock_ := clock;
     cv_stats_code_ := cv_stats_code_ cv |}.

Arguments now_nanos {P} _.
Arguments rnd {P} _.
Arguments result {P A} _.
Arguments final {P A} _.
Arguments performed {P A} _.

(** The events of the call proper: neither the measurement around it nor
    the perturbation before it. *)
Definition core_of (tr : list Event) : list Event :=
  filter (fun e => negb (is_measurement e || is_perturbation e)) tr.

End Instrumented.

(* ================================================================== *)
(** * A concrete build and environment *)
(* ================================================================== *)

Module Demo.

Import Instrumented.

(** A 32-bit counter cell. *)
#[export] Instance uint32 : Atomic.AtomicValue Z := Atomic.uint_AtomicValue 32.

(** A Lehmer generator (multiplier 16807, modulus 2^31 - 1) standing for
    [Random]: [Uniform n] is the next output modulo [n], and [OneIn n]
    holds when that is 0. *)
Definition lehmer_next (seed : Z) : Z :=
  let product := seed * 16807 in
  let s := Z.shiftr product 31 + Z.land product 2147483647 in
  if s >? 2147483647 then s - 2147483647 else s.

Definition lehmer_new (s : Z) : Z :=
  if Z.land s 2147483647 =? 0 then 1 else Z.land s 2147483647.

Definition lehmer_Uniform (n : Z) (seed : Z) : Z * Z :=
  let s := lehmer_next seed in (s mod n, s).

Definition lehmer_OneIn (n : Z) (seed : Z) : bool * Z :=
  let (u, s) := lehmer_Uniform n seed in (u =? 0, s).

(** A debug build with the context-switch coercion compiled in. *)
Definition chaos_build : Platform :=
  {| NDEBUG := false; COERCE_CONTEXT_SWITCH := true;
     kExceptTimeForMutex := 4; DB_MUTEX_WAIT_MICROS := 6;
     Random := Z; Random_new := lehmer_new;
     OneIn := lehmer_OneIn; Uniform := lehmer_Uniform |}.

(** A release build without it. *)
Definition release_build : Platform :=
  {| NDEBUG := true; COERCE_CONTEXT_SWITCH := false;
     kExceptTimeForMutex := 4; DB_MUTEX_WAIT_MICROS := 6;
     Random := Z; Random_new := lehmer_new;
     OneIn := lehmer_OneIn; Uniform := lehmer_Uniform |}.

(** The raw lock is had after 700ns and a wait is signalled after 900ns; a
    timed wait runs into its deadline when that is at most 50ms away and is
    signalled after 50ms otherwise. *)
Definition plain_env : Env :=
  {| mutex_block_nanos := fun _ => 700;
     cond_block_nanos := fun _ => 900;
     timed_wait_outcome := fun t abs_time_us =>
       if abs_time_us * 1000 <=? t + 50000000
       then (DeadlineReached, Z.max 0 (abs_time_us * 1000 - t))
       else (Signaled, 50000000);
     sync_point_callback := fun _ => None |}.

(** The same with a test callback that moves every deadline to 7us. *)
Definition test_env : Env :=
  {| mutex_block_nanos := mutex_block_nanos plain_env;
     cond_block_nanos := cond_block_nanos plain_env;
     timed_wait_outcome := timed_wait_outcome plain_env;
     sync_point_callback := fun name =>
       if String.eqb name "InstrumentedCondVar::TimedWaitInternal"
       then Some (fun _ => 7) else None |}.

Definition detailed_stats : Statistics :=
  {| stats_id := 1; get_stats_level := 5 |}.

Definition coarse_stats : Statistics :=
  {| stats_id := 2; get_stats_level := 4 |}.

Definition the_clock : SystemClock := {| clock_id := 1 |}.

Definition bg_cv : InstrumentedCondVar :=
  {| cond_ := 9; cv_stats_ := Some detailed_stats;
     cv_clock_ := Some the_clock; cv_stats_code_ := 6 |}.

(** The DB mutex: tagged [DB_MUTEX_WAIT_MICROS], with sink and clock. *)
Definition db_mutex : InstrumentedMutex :=
  {| mutex_ := 3; stats_ := Some detailed_stats; clock_ := Some the_clock;
     stats_code_ := 6; bg_cv_ := Some bg_cv |}.

(** A lock with the same sink and clock under another tag. *)
Definition other_mutex : InstrumentedMutex :=
  {| mutex_ := 4; stats_ := Some detailed_stats; clock_ := Some the_clock;
     stats_code_ := 0; bg_cv_ := None |}.

(** A lock tagged like the DB mutex whose clock pointer is null. *)
Definition clockless_mutex : InstrumentedMutex :=
  {| mutex_ := 5; stats_ := Some detailed_stats; clock_ := None;
     stats_code_ := 6; bg_cv_ := None |}.

End Demo.

(* ================================================================== *)
(** * Properties of the atomic wrappers *)
(* ================================================================== *)

Section AtomicFacts.

Import Atomic.

Context {T : Type} `{AtomicValue T}.

Lemma t_eqb_refl (x : T) : t_eqb x x = true.
Proof. destruct (t_eqb_spec x x) as [_ | ne]; [reflexivity | now elim ne]. Qed.

Lemma t_eqb_neq (x y : T) : x <> y -> t_eqb x y = false.
Proof. intros ne. destruct (t_eqb_spec x y); [contradiction | reflexivity]. Qed.

(** The strong exchange of the standard atomic on a cell that holds the
    expected value. *)
Lemma compare_exchange_strong_hit (a : atomic T) (d : T) (mo : memory_order) :
  compare_exchange_strong a (contents a) d mo = (true, contents a, mk_atomic d).
Proof. unfold compare_exchange_strong. now rewrite t_eqb_refl. Qed.

(** A weak exchange that does not fail spuriously is the strong one. *)
Lemma compare_exchange_weak_steady (a : atomic T) (e d : T)
    (mo : memory_order) :
  compare_exchange_weak false a e d mo = compare_exchange_strong a e d mo.
Proof.
  unfold compare_exchange_weak, compare_exchange_strong.
  now rewrite andb_true_r.
Qed.

Lemma compare_exchange_weak_spurious (a : atomic T) (e d : T)
    (mo : memory_order) :
  compare_exchange_weak true a e d mo = (false, contents a, a).
Proof.
  unfold compare_exchange_weak. now rewrite andb_false_r.
Qed.

(** Whatever the method, a failed compare-and-swap hands back the cell's
    value and the cell as it was. *)
Lemma cas_failed (how : CasMethod) (e d : T) (c : RelaxedAtomic T) :
  cas_ok (cas how e d c) = false ->
  cas how e d c = (false, LoadRelaxed c, c).
Proof.
  destruct c as [a].
  destruct how as [sp | | sp | ]; simpl;
    unfold CasWeakRelaxed, CasStrongRelaxed, CasWeak, CasStrong,
      compare_exchange_weak, compare_exchange_strong, cas_ok; simpl;
    try destruct sp; rewrite ?andb_true_r, ?andb_false_r;
    destruct (t_eqb (contents a) e); simpl; intros ok;
    first [discriminate ok | reflexivity].
Qed.

(** One call agrees with the sequential prediction unless it is a weak
    compare-and-swap that fails spuriously. *)
Lemma call_seq_call (op : Op T) (c : RelaxedAtomic T) :
  fails_spuriously op = false ->
  call op c
  = (fst (seq_call op (LoadRelaxed c)),
     RelaxedAtomic_new (snd (seq_call op (LoadRelaxed c)))).
Proof.
  destruct c as [[x]]. destruct op as [d| |d|o|o|o|o|o|sp e d|e d];
    simpl; intros steady; try reflexivity.
  - subst sp. unfold CasWeakRelaxed. rewrite compare_exchange_weak_steady.
    unfold compare_exchange_strong, LoadRelaxed, atomic_load; simpl.
    destruct (t_eqb x e); reflexivity.
  - unfold CasStrongRelaxed, compare_exchange_strong, LoadRelaxed,
      atomic_load; simpl.
    destruct (t_eqb x e); reflexivity.
Qed.

(** C3: for a cell of either class that holds X, and any Y, the strong
    compare-and-swap with expected X and desired Y returns true and leaves
    the cell holding Y; it has no spurious failure, so it succeeds whenever
    the current value equals [expected]. *)
Theorem casStrong_succeeds_when_equal (c : RelaxedAtomic T) (X Y : T) :
  LoadRelaxed c = X ->
  (cas_ok (CasStrongRelaxed X Y c) = true /\
   LoadRelaxed (cas_cell (CasStrongRelaxed X Y c)) = Y) /\
  (cas_ok (CasStrong X Y c) = true /\
   Load (cas_cell (CasStrong X Y c)) = Y).
Proof.
  intros holds. destruct c as [a].
  unfold LoadRelaxed, atomic_load in holds; simpl in holds. subst X.
  unfold CasStrongRelaxed, CasStrong; simpl.
  rewrite !compare_exchange_strong_hit. simpl. repeat split.
Qed.

(** C4: for the weak and the strong compare-and-swap of either class,
    whenever the call returns false the cell's current value has been
    written into [expected] and the cell keeps its prior value, be it that
    the comparison failed or that a weak attempt failed spuriously. *)
Theorem cas_failure_writes_back (how : CasMethod) (expected desired : T)
    (c : RelaxedAtomic T) :
  cas_ok (cas how expected desired c) = false ->
  cas_expected (cas how expected desired c) = LoadRelaxed c /\
  cas_cell (cas how expected desired c) = c /\
  LoadRelaxed (cas_cell (cas how expected desired c)) = LoadRelaxed c.
Proof.
  intros failed. rewrite (cas_failed _ _ _ _ failed). repeat split.
Qed.

(** A comparison that fails because the values differ returns false, for
    every method. *)
Lemma cas_differs (how : CasMethod) (e d : T) (c : RelaxedAtomic T) :
  LoadRelaxed c <> e -> cas_ok (cas how e d c) = false.
Proof.
  destruct c as [a]. unfold LoadRelaxed, atomic_load; simpl. intros ne.
  destruct how as [sp | | sp | ]; simpl;
    unfold CasWeakRelaxed, CasStrongRelaxed, CasWeak, CasStrong,
      compare_exchange_weak, compare_exchange_strong, cas_ok; simpl;
    rewrite (t_eqb_neq _ _ ne); reflexivity.
Qed.

Lemma run_seq_run (ops : list (Op T)) :
  forall c : RelaxedAtomic T,
  forallb (fun op => negb (fails_spuriously op)) ops = true ->
  run ops c = seq_run ops (LoadRelaxed c).
Proof.
  induction ops as [| op rest IH]; intros c steady; [reflexivity |].
  simpl in steady. apply andb_true_iff in steady as [here later].
  apply negb_true_iff in here.
  simpl. rewrite (call_seq_call op c here).
  destruct (seq_call op (LoadRelaxed c)) as [r x'] eqn:step. simpl.
  rewrite (IH _ later). reflexivity.
Qed.

(** C8, as amended: on one thread, a program of stores, loads, exchanges,
    fetch-ops and compare-and-swaps in which no weak compare-and-swap fails
    spuriously observes, after each call, the value sequential semantics
    predicts, with the same results; every fetch-op returns the value the
    cell held immediately before the modification; and a weak
    compare-and-swap that fails spuriously returns false with the cell
    unchanged. *)
Theorem relaxed_cell_is_sequential (ops : list (Op T)) (c : RelaxedAtomic T) :
  forallb (fun op => negb (fails_spuriously op)) ops = true ->
  run ops c = seq_run ops (LoadRelaxed c) /\
  (forall op c', is_fetch_op op = true ->
     fst (call op c') = RetValue (LoadRelaxed c')) /\
  (forall e d c', call (OpCasWeak true e d) c'
                  = (RetCas false (LoadRelaxed c'), c')).
Proof.
  intros steady. split; [now apply run_seq_run |]. split.
  - intros op [[x]] fetch. destruct op; try discriminate fetch; reflexivity.
  - intros e d [a]. simpl. unfold CasWeakRelaxed.
    rewrite compare_exchange_weak_spurious. reflexivity.
Qed.

End AtomicFacts.

Section AtomicRuns.

Import Atomic Demo.

Example fetch_add_wraps :
  run [OpStore 4294967295; OpFetchAdd 2; OpLoad] (RelaxedAtomic_new 0)
  = [(RetVoid, 4294967295); (RetValue 4294967295, 1); (RetValue 1, 1)].
Proof. reflexivity. Qed.

Example default_cell_holds_zero :
  LoadRelaxed RelaxedAtomic_default = 0 /\ Load AcqRelAtomic_default = 0.
Proof. split; reflexivity. Qed.

Example cas_sequence :
  run [OpCasStrong 0 5; OpCasStrong 0 6; OpCasWeak false 5 7]
      (RelaxedAtomic_new 0)
  = [(RetCas true 0, 5); (RetCas false 5, 5); (RetCas true 5, 7)].
Proof. reflexivity. Qed.

Lemma casStrong_succeeds_when_equal_witness :
  (cas_ok (CasStrongRelaxed 3 8 (RelaxedAtomic_new 3)) = true /\
   LoadRelaxed (cas_cell (CasStrongRelaxed 3 8 (RelaxedAtomic_new 3))) = 8) /\
  (cas_ok (CasStrong 3 8 (RelaxedAtomic_new 3)) = true /\
   Load (cas_cell (CasStrong 3 8 (RelaxedAtomic_new 3))) = 8).
Proof.
  apply (casStrong_succeeds_when_equal (RelaxedAtomic_new 3) 3 8).
  reflexivity.
Defined.

Lemma cas_failure_writes_back_witness :
  cas_expected (cas (ViaCasWeak true) 3 8 (RelaxedAtomic_new 3)) = 3 /\
  cas_cell (cas (ViaCasWeak true) 3 8 (RelaxedAtomic_new 3))
  = RelaxedAtomic_new 3 /\
  LoadRelaxed (cas_cell (cas (ViaCasWeak true) 3 8 (RelaxedAtomic_new 3)))
  = 3.
Proof.
  apply (cas_failure_writes_back (ViaCasWeak true) 3 8 (RelaxedAtomic_new 3)).
  reflexivity.
Defined.

(** C8, as stated, fails: a weak compare-and-swap whose comparison succeeds
    but which fails spuriously leaves 0 in the cell and returns false, where
    sequential semantics predicts true and 1. *)
Lemma relaxed_cell_weak_cas_counterexample :
  run [OpCasWeak true 0 1] (RelaxedAtomic_new 0) = [(RetCas false 0, 0)] /\
  seq_run [OpCasWeak true 0 1] (LoadRelaxed (RelaxedAtomic_new 0))
  = [(RetCas true 0, 1)] /\
  run [OpCasWeak true 0 1] (RelaxedAtomic_new 0)
  <> seq_run [OpCasWeak true 0 1] (LoadRelaxed (RelaxedAtomic_new 0)).
Proof. repeat split; discriminate. Qed.

Lemma relaxed_cell_is_sequential_witness :
  run [OpStore 6; OpFetchAnd 3; OpCasWeak false 2 9; OpExchange 1]
      (RelaxedAtomic_new 0)
  = seq_run [OpStore 6; OpFetchAnd 3; OpCasWeak false 2 9; OpExchange 1]
      (LoadRelaxed (RelaxedAtomic_new 0)) /\
  (forall op c', is_fetch_op op = true ->
     fst (call op c') = RetValue (LoadRelaxed c')) /\
  (forall e d c', call (OpCasWeak true e d) c'
                  = (RetCas false (LoadRelaxed c'), c')).
Proof.
  apply (relaxed_cell_is_sequential
           [OpStore 6; OpFetchAnd 3; OpCasWeak false 2 9; OpExchange 1]
           (RelaxedAtomic_new 0)).
  reflexivity.
Defined.

End AtomicRuns.

(* ================================================================== *)
(** * Properties of the instrumented mutex and condition variable *)
(* ================================================================== *)

Section InstrumentedFacts.

Import Instrumented.

Variable P : Platform.
Variable E : Env.

(** The guard measures into a sink exactly under the four conditions. *)
Lemma guard_sink_Some (code : Z) (clock : option SystemClock)
    (stats : option Statistics) (s : Statistics) :
  guard_sink P code clock stats = Some s <->
  code = DB_MUTEX_WAIT_MICROS P /\ clock <> None /\ stats = Some s /\
  get_stats_level s > kExceptTimeForMutex P.
Proof.
  unfold guard_sink, stats_for_report.
  destruct (Z.eqb_spec code (DB_MUTEX_WAIT_MICROS P)) as [tag | tag].
  - destruct clock as [k |], stats as [s0 |];
      try (split; [discriminate | intros (_ & ck & st & _); congruence]).
    destruct (Z.gtb_spec (get_stats_level s0) (kExceptTimeForMutex P))
      as [above | below].
    + split.
      * intros eq. injection eq as ->.
        split; [exact tag |]. split; [discriminate |].
        split; [reflexivity | lia].
      * intros (_ & _ & st & _). congruence.
    + split; [discriminate |].
      intros (_ & _ & st & above). injection st as ->. lia.
  - split; [discriminate | intros (tag' & _); contradiction].
Qed.

Lemma guard_sink_None (code : Z) (clock : option SystemClock)
    (stats : option Statistics) :
  guard_sink P code clock stats = None <->
  code <> DB_MUTEX_WAIT_MICROS P \/ clock = None \/ stats = None \/
  (exists s, stats = Some s /\ get_stats_level s <= kExceptTimeForMutex P).
Proof.
  unfold guard_sink, stats_for_report.
  destruct (Z.eqb_spec code (DB_MUTEX_WAIT_MICROS P)) as [tag | tag].
  - destruct clock as [k |], stats as [s0 |]; try (split; [auto | reflexivity]).
    destruct (Z.gtb_spec (get_stats_level s0) (kExceptTimeForMutex P))
      as [above | below].
    + split; [discriminate |].
      intros [ne | [ck | [st | (s & st & low)]]];
        try contradiction; try discriminate.
      injection st as <-. lia.
    + split; [| reflexivity]. intros _. right; right; right.
      exists s0. split; [reflexivity | lia].
  - split; [auto | reflexivity].
Qed.

(** ** The timer guard around an arbitrary body *)

Lemma timer_guard_run {A} (metric : PerfMetric) (code : Z)
    (clock : option SystemClock) (stats : option Statistics) (body : M P A)
    (w : World P) :
  PERF_CONDITIONAL_TIMER_FOR_MUTEX_GUARD P metric
    (code =? DB_MUTEX_WAIT_MICROS P) (stats_for_report P clock stats) code
    body w
  = match guard_sink P code clock stats with
    | Some sink =>
        (result (body w), final (body w),
         EvTimerStart metric
         :: performed (body w)
            ++ [EvRecord {| sample_sink := sink; sample_metric := metric;
                            sample_ticker := code;
                            sample_nanos := now_nanos (final (body w))
                                            - now_nanos w |}])
    | None => body w
    end.
Proof.
  unfold PERF_CONDITIONAL_TIMER_FOR_MUTEX_GUARD, guard_sink.
  destruct (if code =? DB_MUTEX_WAIT_MICROS P
            then stats_for_report P clock stats else None) as [sink |];
    [| reflexivity].
  unfold bind, emit, now, ret, result, final, performed.
  destruct (body w) as [[a w1] done]. reflexivity.
Qed.

(** ** The three bodies *)

Ltac unfold_calls :=
  unfold LockInternal, WaitInternal, TimedWaitInternal, port_Mutex_Lock,
    port_CondVar_Wait, port_CondVar_TimedWait, port_CondVar_SignalAll,
    SignalAll, TEST_StateDelay, sched_yield, SleepForMicroseconds,
    TEST_SYNC_POINT_CALLBACK, when, bind, ret, emit, elapse, now, draw,
    result, final, performed.

Lemma LockInternal_performed (m : InstrumentedMutex) (w : World P) :
  performed (LockInternal P E m w)
  = state_delay_events P
    ++ (if COERCE_CONTEXT_SWITCH P
           && (stats_code_ m =? DB_MUTEX_WAIT_MICROS P)
        then
          if fst (OneIn P 2 (rnd w))
          then signal_group m ++ [EvYield]
          else signal_group m
               ++ [EvSleep (wrap32 (fst (Uniform P 11
                                           (snd (OneIn P 2 (rnd w))))
                                    * 1000))]
        else [])
    ++ [EvMutexLock (mutex_ m)].
Proof.
  unfold_calls. unfold state_delay_events, signal_group.
  destruct (NDEBUG P), (COERCE_CONTEXT_SWITCH P),
    (stats_code_ m =? DB_MUTEX_WAIT_MICROS P); simpl; try reflexivity;
    destruct (OneIn P 2 (rnd w)) as [[|] g1]; simpl;
    try destruct (Uniform P 11 g1) as [u g2]; simpl;
    destruct (bg_cv_ m) as [cv |]; reflexivity.
Qed.

Lemma WaitInternal_performed (cv : InstrumentedCondVar) (w : World P) :
  performed (WaitInternal P E cv w)
  = state_delay_events P ++ [EvCondWait (cond_ cv)].
Proof.
  unfold_calls. unfold state_delay_events. destruct (NDEBUG P); reflexivity.
Qed.

Lemma TimedWaitInternal_run (cv : InstrumentedCondVar) (abs_time_us : Z)
    (w : World P) :
  let name := "InstrumentedCondVar::TimedWaitInternal"%string in
  let deadline :=
    if NDEBUG P then abs_time_us
    else match sync_point_callback E name with
         | Some callback => callback abs_time_us
         | None => abs_time_us
         end in
  performed (TimedWaitInternal P E cv abs_time_us w)
  = state_delay_events P
    ++ (if NDEBUG P then [] else [EvSyncPoint name abs_time_us])
    ++ [EvCondTimedWait (cond_ cv) deadline] /\
  result (TimedWaitInternal P E cv abs_time_us w)
  = result (port_CondVar_TimedWait P E (cond_ cv) deadline w) /\
  result (port_CondVar_TimedWait P E (cond_ cv) deadline w)
  = match fst (timed_wait_outcome E (now_nanos w) deadline) with
    | DeadlineReached => true
    | _ => false
    end.
Proof.
  unfold_calls. unfold state_delay_events.
  destruct (NDEBUG P); simpl;
    destruct (timed_wait_outcome E (now_nanos w) _) as [why nanos];
    repeat split.
Qed.

(** ** Events of the measurement and events of the call *)

Lemma primitive_only_samples (tr : list Event) :
  primitive_only tr -> samples_of tr = [].
Proof.
  unfold primitive_only.
  induction tr as [| e tr IH]; simpl; [reflexivity |].
  intros ok. apply andb_true_iff in ok as [here rest].
  destruct e; try discriminate here; simpl; auto.
Qed.

Lemma primitive_only_primitives (tr : list Event) :
  primitive_only tr -> primitives_of tr = tr.
Proof.
  unfold primitive_only, primitives_of.
  induction tr as [| e tr IH]; simpl; [reflexivity |].
  intros ok. apply andb_true_iff in ok as [here rest].
  rewrite here, (IH rest). reflexivity.
Qed.

Lemma samples_of_app (l r : list Event) :
  samples_of (l ++ r) = samples_of l ++ samples_of r.
Proof. unfold samples_of. apply flat_map_app. Qed.

Lemma primitives_of_app (l r : list Event) :
  primitives_of (l ++ r) = primitives_of l ++ primitives_of r.
Proof. unfold primitives_of. apply filter_app. Qed.

Lemma LockInternal_primitive (m : InstrumentedMutex) (w : World P) :
  primitive_only (performed (LockInternal P E m w)).
Proof.
  rewrite LockInternal_performed.
  unfold primitive_only, state_delay_events, signal_group.
  destruct (NDEBUG P), (COERCE_CONTEXT_SWITCH P),
    (stats_code_ m =? DB_MUTEX_WAIT_MICROS P), (fst (OneIn P 2 (rnd w))),
    (bg_cv_ m); reflexivity.
Qed.

Lemma WaitInternal_primitive (cv : InstrumentedCondVar) (w : World P) :
  primitive_only (performed (WaitInternal P E cv w)).
Proof.
  rewrite WaitInternal_performed. unfold primitive_only, state_delay_events.
  destruct (NDEBUG P); reflexivity.
Qed.

Lemma TimedWaitInternal_primitive (cv : InstrumentedCondVar) (abs : Z)
    (w : World P) :
  primitive_only (performed (TimedWaitInternal P E cv abs w)).
Proof.
  rewrite (proj1 (TimedWaitInternal_run cv abs w)).
  unfold primitive_only, state_delay_events.
  destruct (NDEBUG P); reflexivity.
Qed.

(** The samples a guarded call records: one into the guard's sink, or
    none. *)
Lemma timer_guard_samples {A} (metric : PerfMetric) (code : Z)
    (clock : option SystemClock) (stats : option Statistics) (body : M P A)
    (w : World P) :
  primitive_only (performed (body w)) ->
  samples_of
    (performed
       (PERF_CONDITIONAL_TIMER_FOR_MUTEX_GUARD P metric
          (code =? DB_MUTEX_WAIT_MICROS P) (stats_for_report P clock stats)
          code body w))
  = match guard_sink P code clock stats with
    | Some sink =>
        [{| sample_sink := sink; sample_metric := metric;
            sample_ticker := code;
            sample_nanos := now_nanos (final (body w)) - now_nanos w |}]
    | None => []
    end.
Proof.
  intros prim. rewrite timer_guard_run.
  destruct (guard_sink P code clock stats) as [sink |].
  - unfold performed at 1. simpl snd.
    change (EvTimerStart metric :: ?l) with ([EvTimerStart metric] ++ l).
    rewrite !samples_of_app, (primitive_only_samples _ prim). reflexivity.
  - now apply primitive_only_samples.
Qed.

(** The guard adds nothing but its own two events. *)
Lemma timer_guard_transparent {A} (metric : PerfMetric) (code : Z)
    (clock : option SystemClock) (stats : option Statistics) (body : M P A)
    (w : World P) :
  primitive_only (performed (body w)) ->
  let r := PERF_CONDITIONAL_TIMER_FOR_MUTEX_GUARD P metric
             (code =? DB_MUTEX_WAIT_MICROS P)
             (stats_for_report P clock stats) code body w in
  primitives_of (performed r) = performed (body w) /\
  final r = final (body w) /\ result r = result (body w).
Proof.
  intros prim r. subst r. rewrite timer_guard_run.
  destruct (guard_sink P code clock stats) as [sink |].
  - unfold performed at 1, final at 1, result at 1. simpl.
    rewrite primitives_of_app, (primitive_only_primitives _ prim). simpl.
    rewrite app_nil_r. repeat split.
  - rewrite (primitive_only_primitives _ prim). repeat split.
Qed.

(** ** Lock *)

(** C1, as amended: a call to [Lock] records exactly one latency sample
    when the lock's tag is the wait-for-background-work classification, the
    clock is non-null, and a statistics sink is attached whose level is
    above the exclusion threshold; it records none when the sink is absent
    or its level is at or below the threshold, and none either under
    another tag or with a null clock. *)
Theorem Lock_sample_count (m : InstrumentedMutex) (w : World P) :
  let n := List.length (samples_of (performed (Lock P E m w))) in
  (stats_code_ m = DB_MUTEX_WAIT_MICROS P /\ clock_ m <> None /\
   (exists s, stats_ m = Some s /\
              get_stats_level s > kExceptTimeForMutex P) ->
   n = 1%nat) /\
  (stats_code_ m <> DB_MUTEX_WAIT_MICROS P \/ clock_ m = None \/
   stats_ m = None \/
   (exists s, stats_ m = Some s /\
              get_stats_level s <= kExceptTimeForMutex P) ->
   n = 0%nat).
Proof.
  intros n. subst n. unfold Lock.
  rewrite (timer_guard_samples _ _ _ _ _ _ (LockInternal_primitive m w)).
  split.
  - intros (tag & ck & s & st & above).
    assert (G : guard_sink P (stats_code_ m) (clock_ m) (stats_ m) = Some s)
      by (apply guard_sink_Some; auto).
    now rewrite G.
  - intros off. apply guard_sink_None in off. now rewrite off.
Qed.

(** C2: [Lock] starts a latency measurement, and on return finalizes it and
    records the elapsed duration into the statistics sink, if and only if
    the lock's tag is the wait-for-background-work classification, the sink
    is non-null, the clock is non-null and the sink's level exceeds the
    exclude-mutex-timing threshold.  When it does, the start is the first
    thing the call performs and the record the last, under the key
    [db_mutex_lock_nanos], attributed to the lock's tag, with the time that
    passed over the call. *)
Theorem Lock_measures_iff (m : InstrumentedMutex) (w : World P) :
  let r := Lock P E m w in
  let configured :=
    stats_code_ m = DB_MUTEX_WAIT_MICROS P /\ stats_ m <> None /\
    clock_ m <> None /\
    (exists s, stats_ m = Some s /\
               get_stats_level s > kExceptTimeForMutex P) in
  (In (EvTimerStart db_mutex_lock_nanos) (performed r) <-> configured) /\
  ((exists sample, In (EvRecord sample) (performed r)) <-> configured) /\
  (configured ->
   exists s, stats_ m = Some s /\
     performed r
     = EvTimerStart db_mutex_lock_nanos
       :: performed (LockInternal P E m w)
          ++ [EvRecord {| sample_sink := s;
                          sample_metric := db_mutex_lock_nanos;
                          sample_ticker := stats_code_ m;
                          sample_nanos := now_nanos (final r)
                                          - now_nanos w |}]).
Proof.
  intros r configured.
  assert (prim := LockInternal_primitive m w).
  assert (inside : forall e, is_measurement e = true ->
                     ~ In e (performed (LockInternal P E m w))).
  { intros e meas occ. unfold primitive_only in prim.
    rewrite forallb_forall in prim. specialize (prim e occ).
    rewrite meas in prim. discriminate prim. }
  assert (shape : r = Lock P E m w) by reflexivity.
  unfold Lock in shape. rewrite timer_guard_run in shape.
  destruct (guard_sink P (stats_code_ m) (clock_ m) (stats_ m))
    as [sink |] eqn:G.
  - apply guard_sink_Some in G as (tag & ck & st & above).
    assert (yes : configured).
    { unfold configured. repeat split; auto; [congruence | eauto]. }
    rewrite shape. unfold performed at 1 2 3, final at 1. simpl.
    split; [split; [intros _; exact yes | intros _; now left] |].
    split.
    + split; [intros _; exact yes |]. intros _. eexists. right.
      apply in_or_app. right. left. reflexivity.
    + intros _. exists sink. split; [exact st | reflexivity].
  - assert (no : ~ configured).
    { intros (tag & st & ck & s & st' & above).
      assert (G' : guard_sink P (stats_code_ m) (clock_ m) (stats_ m)
                   = Some s) by (apply guard_sink_Some; auto).
      congruence. }
    rewrite shape.
    split.
    { split; [| tauto]. intros occ.
      exact (False_ind _
               (inside (EvTimerStart db_mutex_lock_nanos) eq_refl occ)). }
    split; [| tauto].
    split; [| tauto]. intros [sample occ].
    exact (False_ind _ (inside (EvRecord sample) eq_refl occ)).
Qed.

Lemma Lock_performed (m : InstrumentedMutex) (w : World P) :
  performed (Lock P E m w)
  = match guard_sink P (stats_code_ m) (clock_ m) (stats_ m) with
    | Some sink =>
        EvTimerStart db_mutex_lock_nanos
        :: performed (LockInternal P E m w)
           ++ [EvRecord {| sample_sink := sink;
                           sample_metric := db_mutex_lock_nanos;
                           sample_ticker := stats_code_ m;
                           sample_nanos :=
                             now_nanos (final (LockInternal P E m w))
                             - now_nanos w |}]
    | None => performed (LockInternal P E m w)
    end.
Proof.
  unfold Lock. rewrite timer_guard_run.
  destruct (guard_sink P (stats_code_ m) (clock_ m) (stats_ m));
    reflexivity.
Qed.

(** C5: only in the build with the context-switch coercion compiled in, and
    only for a lock tagged with the background-wait classification, [Lock]
    perturbs the schedule before it acquires the raw lock: when the
    generator's [OneIn(2)] holds it signals every waiter of the lock's
    signal group and yields once; otherwise it signals every waiter and
    sleeps [Uniform(11)] milliseconds, a duration between 0 and 10
    milliseconds.  Nothing of the kind happens after the raw lock is
    acquired, and nothing at all in other builds or under other tags. *)
Theorem Lock_coerces_context_switch (m : InstrumentedMutex) (w : World P) :
  let coin := fst (OneIn P 2 (rnd w)) in
  let u := fst (Uniform P 11 (snd (OneIn P 2 (rnd w)))) in
  0 <= u < 11 ->
  let done := performed (Lock P E m w) in
  filter is_perturbation (before_raw_lock done)
  = (if COERCE_CONTEXT_SWITCH P
        && (stats_code_ m =? DB_MUTEX_WAIT_MICROS P)
     then if coin then signal_group m ++ [EvYield]
          else signal_group m ++ [EvSleep (u * 1000)]
     else []) /\
  filter is_raw_lock done = [EvMutexLock (mutex_ m)] /\
  filter is_perturbation done
  = filter is_perturbation (before_raw_lock done) /\
  0 <= u * 1000 <= 10 * 1000.
Proof.
  intros coin u range done.
  assert (fits : wrap32 (u * 1000) = u * 1000)
    by (unfold wrap32; apply Z.mod_small; lia).
  subst done. rewrite Lock_performed, LockInternal_performed.
  fold u. rewrite fits. fold coin.
  unfold state_delay_events, signal_group.
  destruct (guard_sink P (stats_code_ m) (clock_ m) (stats_ m)),
    (NDEBUG P), (COERCE_CONTEXT_SWITCH P),
    (stats_code_ m =? DB_MUTEX_WAIT_MICROS P), coin, (bg_cv_ m);
    simpl; repeat split; lia.
Qed.

(** ** Wait and TimedWait *)

(** C6: the boolean [TimedWait] returns is true exactly when the wait on
    the raw condition variable ran into its absolute deadline, and false
    when a signal or a spurious wakeup ended it earlier; the outcome comes
    back as this boolean alone, and it is the result of the underlying
    timed wait, unchanged.  The deadline is the one that wait is handed:
    the caller's, unless a build with test instrumentation has a callback
    at the sync point that rewrites it. *)
Theorem TimedWait_reports_deadline (cv : InstrumentedCondVar)
    (abs_time_us : Z) (w : World P) :
  let deadline :=
    if NDEBUG P then abs_time_us
    else
      match
        sync_point_callback E "InstrumentedCondVar::TimedWaitInternal"
      with
      | Some callback => callback abs_time_us
      | None => abs_time_us
      end in
  let why := fst (timed_wait_outcome E (now_nanos w) deadline) in
  let r := TimedWait P E cv abs_time_us w in
  (result r = true <-> why = DeadlineReached) /\
  (result r = false <-> why = Signaled \/ why = SpuriousWakeup) /\
  result r = result (port_CondVar_TimedWait P E (cond_ cv) deadline w).
Proof.
  intros deadline why r.
  destruct (TimedWaitInternal_run cv abs_time_us w) as (_ & inner & raw).
  cbv zeta in inner, raw. fold deadline in inner, raw. fold why in raw.
  assert (same : result r = result (TimedWaitInternal P E cv abs_time_us w)).
  { subst r. unfold TimedWait.
    apply (timer_guard_transparent _ _ _ _ _ _
             (TimedWaitInternal_primitive cv abs_time_us w)). }
  rewrite same, inner, raw.
  destruct why; repeat split; intros; try discriminate; auto;
    match goal with
    | H : _ \/ _ |- _ => destruct H; discriminate
    end.
Qed.

(** C7, as amended: in a build with test instrumentation compiled in
    ([NDEBUG] not defined), every call to [TimedWait] invokes the sync point
    [InstrumentedCondVar::TimedWaitInternal] with the deadline it was
    given, immediately before the timed wait on the raw condition variable,
    and that wait is passed the deadline as a registered callback rewrote
    it, or the original one when no callback is registered.  In a
    production build the point is a no-op: nothing is invoked, and the wait
    is passed the caller's deadline.  Either way the call waits only this
    once. *)
Theorem TimedWait_sync_point (cv : InstrumentedCondVar) (abs_time_us : Z)
    (w : World P) :
  let name := "InstrumentedCondVar::TimedWaitInternal"%string in
  let deadline :=
    if NDEBUG P then abs_time_us
    else match sync_point_callback E name with
         | Some callback => callback abs_time_us
         | None => abs_time_us
         end in
  exists before after,
    performed (TimedWait P E cv abs_time_us w)
    = before
      ++ (if NDEBUG P then [] else [EvSyncPoint name abs_time_us])
      ++ [EvCondTimedWait (cond_ cv) deadline]
      ++ after /\
    forallb (fun e => negb (is_timed_wait_step e)) (before ++ after) = true.
Proof.
  intros name deadline. unfold TimedWait. rewrite timer_guard_run.
  destruct (TimedWaitInternal_run cv abs_time_us w) as (inner & _ & _).
  cbv zeta in inner. fold name in inner. fold deadline in inner.
  destruct (guard_sink P (cv_stats_code_ cv) (cv_clock_ cv) (cv_stats_ cv))
    as [sink |].
  - unfold performed at 1. simpl snd. rewrite inner.
    exists (EvTimerStart db_condition_wait_nanos :: state_delay_events P).
    eexists. split.
    + simpl. rewrite <- !app_assoc. reflexivity.
    + unfold state_delay_events. destruct (NDEBUG P); reflexivity.
  - rewrite inner. exists (state_delay_events P), []. split.
    + now rewrite app_nil_r.
    + unfold state_delay_events. destruct (NDEBUG P); reflexivity.
Qed.

(** ** The statistics configuration *)

Lemma one_sample_at_most {A} (metric : PerfMetric) (code : Z)
    (clock : option SystemClock) (stats : option Statistics) (body : M P A)
    (w : World P) :
  primitive_only (performed (body w)) ->
  let r := PERF_CONDITIONAL_TIMER_FOR_MUTEX_GUARD P metric
             (code =? DB_MUTEX_WAIT_MICROS P)
             (stats_for_report P clock stats) code body w in
  (List.length (samples_of (performed r)) <= 1)%nat.
Proof.
  intros prim r. subst r. rewrite (timer_guard_samples _ _ _ _ _ _ prim).
  destruct (guard_sink P code clock stats); simpl; lia.
Qed.

(** C9: two runs of [Lock], of [Wait] or of [TimedWait] that differ only in
    the statistics sink and clock they are configured with (null or not,
    and at whatever level) perform the same primitive operations with the
    same arguments and end in the same state, and [TimedWait] returns the
    same boolean; the configuration decides only whether the one latency
    sample is recorded. *)
Theorem sink_config_decides_only_sampling (m : InstrumentedMutex)
    (cv : InstrumentedCondVar) (abs_time_us : Z)
    (clock clock' : option SystemClock) (stats stats' : option Statistics)
    (w : World P) :
  let lock1 := Lock P E (with_config m clock stats) w in
  let lock2 := Lock P E (with_config m clock' stats') w in
  let wait1 := Wait P E (cv_with_config cv clock stats) w in
  let wait2 := Wait P E (cv_with_config cv clock' stats') w in
  let timed1 := TimedWait P E (cv_with_config cv clock stats) abs_time_us w in
  let timed2 :=
    TimedWait P E (cv_with_config cv clock' stats') abs_time_us w in
  (primitives_of (performed lock1) = primitives_of (performed lock2) /\
   final lock1 = final lock2 /\
   (List.length (samples_of (performed lock1)) <= 1)%nat) /\
  (primitives_of (performed wait1) = primitives_of (performed wait2) /\
   final wait1 = final wait2 /\
   (List.length (samples_of (performed wait1)) <= 1)%nat) /\
  (primitives_of (performed timed1) = primitives_of (performed timed2) /\
   final timed1 = final timed2 /\ result timed1 = result timed2 /\
   (List.length (samples_of (performed timed1)) <= 1)%nat).
Proof.
  intros lock1 lock2 wait1 wait2 timed1 timed2.
  split; [| split].
  - destruct (timer_guard_transparent db_mutex_lock_nanos (stats_code_ m)
                clock stats _ w (LockInternal_primitive m w))
      as (p1 & f1 & _).
    destruct (timer_guard_transparent db_mutex_lock_nanos (stats_code_ m)
                clock' stats' _ w (LockInternal_primitive m w))
      as (p2 & f2 & _).
    split; [exact (eq_trans p1 (eq_sym p2)) |].
    split; [exact (eq_trans f1 (eq_sym f2)) |].
    exact (one_sample_at_most db_mutex_lock_nanos (stats_code_ m) clock
             stats _ w (LockInternal_primitive m w)).
  - destruct (timer_guard_transparent db_condition_wait_nanos
                (cv_stats_code_ cv) clock stats _ w
                (WaitInternal_primitive cv w)) as (p1 & f1 & _).
    destruct (timer_guard_transparent db_condition_wait_nanos
                (cv_stats_code_ cv) clock' stats' _ w
                (WaitInternal_primitive cv w)) as (p2 & f2 & _).
    split; [exact (eq_trans p1 (eq_sym p2)) |].
    split; [exact (eq_trans f1 (eq_sym f2)) |].
    exact (one_sample_at_most db_condition_wait_nanos (cv_stats_code_ cv)
             clock stats _ w (WaitInternal_primitive cv w)).
  - destruct (timer_guard_transparent db_condition_wait_nanos
                (cv_stats_code_ cv) clock stats _ w
                (TimedWaitInternal_primitive cv abs_time_us w))
      as (p1 & f1 & r1).
    destruct (timer_guard_transparent db_condition_wait_nanos
                (cv_stats_code_ cv) clock' stats' _ w
                (TimedWaitInternal_primitive cv abs_time_us w))
      as (p2 & f2 & r2).
    split; [exact (eq_trans p1 (eq_sym p2)) |].
    split; [exact (eq_trans f1 (eq_sym f2)) |].
    split; [exact (eq_trans r1 (eq_sym r2)) |].
    exact (one_sample_at_most db_condition_wait_nanos (cv_stats_code_ cv)
             clock stats _ w
             (TimedWaitInternal_primitive cv abs_time_us w)).
Qed.

(** C10: [Wait] and [TimedWait] record their latency under the key
    [db_condition_wait_nanos], which is not the key [db_mutex_lock_nanos]
    that [Lock] records under, although the three are gated by one and the
    same predicate on the tag, the clock and the sink. *)
Theorem wait_key_differs_from_lock_key (m : InstrumentedMutex)
    (cv : InstrumentedCondVar) (abs_time_us : Z) (w : World P) :
  let sample_under metric sink code nanos :=
    {| sample_sink := sink; sample_metric := metric; sample_ticker := code;
       sample_nanos := nanos |} in
  let gate code clock stats (one : Statistics -> Sample) :=
    match guard_sink P code clock stats with
    | Some sink => [one sink]
    | None => []
    end in
  samples_of (performed (Lock P E m w))
  = gate (stats_code_ m) (clock_ m) (stats_ m)
      (fun sink =>
         sample_under db_mutex_lock_nanos sink (stats_code_ m)
           (now_nanos (final (Lock P E m w)) - now_nanos w)) /\
  samples_of (performed (Wait P E cv w))
  = gate (cv_stats_code_ cv) (cv_clock_ cv) (cv_stats_ cv)
      (fun sink =>
         sample_under db_condition_wait_nanos sink (cv_stats_code_ cv)
           (now_nanos (final (Wait P E cv w)) - now_nanos w)) /\
  samples_of (performed (TimedWait P E cv abs_time_us w))
  = gate (cv_stats_code_ cv) (cv_clock_ cv) (cv_stats_ cv)
      (fun sink =>
         sample_under db_condition_wait_nanos sink (cv_stats_code_ cv)
           (now_nanos (final (TimedWait P E cv abs_time_us w))
            - now_nanos w)) /\
  db_condition_wait_nanos <> db_mutex_lock_nanos.
Proof.
  intros sample_under gate. subst sample_under gate. cbv beta.
  split; [| split; [| split; [| discriminate]]].
  - destruct (timer_guard_transparent db_mutex_lock_nanos (stats_code_ m)
                (clock_ m) (stats_ m) _ w (LockInternal_primitive m w))
      as (_ & f & _).
    fold (Lock P E m) in f. rewrite f. unfold Lock.
    apply timer_guard_samples, LockInternal_primitive.
  - destruct (timer_guard_transparent db_condition_wait_nanos
                (cv_stats_code_ cv) (cv_clock_ cv) (cv_stats_ cv) _ w
                (WaitInternal_primitive cv w)) as (_ & f & _).
    fold (Wait P E cv) in f. rewrite f. unfold Wait.
    apply timer_guard_samples, WaitInternal_primitive.
  - destruct (timer_guard_transparent db_condition_wait_nanos
                (cv_stats_code_ cv) (cv_clock_ cv) (cv_stats_ cv) _ w
                (TimedWaitInternal_primitive cv abs_time_us w))
      as (_ & f & _).
    fold (TimedWait P E cv abs_time_us) in f. rewrite f. unfold TimedWait.
    apply timer_guard_samples, TimedWaitInternal_primitive.
Qed.

End InstrumentedFacts.

(* ================================================================== *)
(** * Runs on the concrete build *)
(* ================================================================== *)

Section InstrumentedRuns.

Import Instrumented Demo.

(** The first [Lock] of the DB mutex in the coercing build: the generator
    seeded with 301 takes the sleeping branch, for 9ms. *)
Example first_Lock_of_db_mutex :
  Lock chaos_build plain_env db_mutex (initial_world chaos_build)
  = (tt, Build_World chaos_build 9000700 1273187716,
     [EvTimerStart db_mutex_lock_nanos; EvStateDelay STATE_MUTEX_WAIT;
      EvSignalAll 9; EvSleep 9000; EvMutexLock 3;
      EvRecord {| sample_sink := detailed_stats;
                  sample_metric := db_mutex_lock_nanos;
                  sample_ticker := 6; sample_nanos := 9000700 |}]).
Proof. reflexivity. Qed.

(** The second one takes the yielding branch. *)
Example second_Lock_of_db_mutex :
  performed
    (Lock chaos_build plain_env db_mutex
       (final (Lock chaos_build plain_env db_mutex
                 (initial_world chaos_build))))
  = [EvTimerStart db_mutex_lock_nanos; EvStateDelay STATE_MUTEX_WAIT;
     EvSignalAll 9; EvYield; EvMutexLock 3;
     EvRecord {| sample_sink := detailed_stats;
                 sample_metric := db_mutex_lock_nanos;
                 sample_ticker := 6; sample_nanos := 700 |}].
Proof. reflexivity. Qed.

Example release_Lock_of_db_mutex :
  performed (Lock release_build plain_env db_mutex
               (initial_world release_build))
  = [EvTimerStart db_mutex_lock_nanos; EvMutexLock 3;
     EvRecord {| sample_sink := detailed_stats;
                 sample_metric := db_mutex_lock_nanos;
                 sample_ticker := 6; sample_nanos := 700 |}].
Proof. reflexivity. Qed.

Example TimedWait_with_rewritten_deadline :
  TimedWait chaos_build test_env bg_cv 1000 (initial_world chaos_build)
  = (true, Build_World chaos_build 7000 301,
     [EvTimerStart db_condition_wait_nanos; EvStateDelay STATE_MUTEX_WAIT;
      EvSyncPoint "InstrumentedCondVar::TimedWaitInternal" 1000;
      EvCondTimedWait 9 7;
      EvRecord {| sample_sink := detailed_stats;
                  sample_metric := db_condition_wait_nanos;
                  sample_ticker := 6; sample_nanos := 7000 |}]).
Proof. reflexivity. Qed.

(** C7, as stated, fails: in the release build the sync point is compiled
    out, so a call invokes nothing before the timed wait, and hands it the
    caller's deadline of 1000us although the environment holds a callback
    that would move it to 7us. *)
Lemma TimedWait_sync_point_counterexample :
  performed (TimedWait release_build plain_env bg_cv 1000
               (initial_world release_build))
  = [EvTimerStart db_condition_wait_nanos; EvCondTimedWait 9 1000;
     EvRecord {| sample_sink := detailed_stats;
                 sample_metric := db_condition_wait_nanos;
                 sample_ticker := 6; sample_nanos := 1000000 |}] /\
  filter is_timed_wait_step
    (performed (TimedWait release_build test_env bg_cv 1000
                  (initial_world release_build)))
  = [EvCondTimedWait 9 1000] /\
  sync_point_callback test_env "InstrumentedCondVar::TimedWaitInternal"
  <> None.
Proof. repeat split; discriminate. Qed.

Example TimedWait_signalled :
  result (TimedWait release_build plain_env bg_cv 100000
            (initial_world release_build)) = false.
Proof. reflexivity. Qed.

(** C1, as stated, fails: a lock under another tag, and a lock with a null
    clock, each with a sink attached whose level is above the threshold,
    record no sample. *)
Lemma Lock_sample_count_counterexample :
  (stats_ other_mutex = Some detailed_stats /\
   get_stats_level detailed_stats > kExceptTimeForMutex release_build /\
   List.length
     (samples_of (performed (Lock release_build plain_env other_mutex
                               (initial_world release_build)))) = 0%nat) /\
  (stats_ clockless_mutex = Some detailed_stats /\
   List.length
     (samples_of (performed (Lock release_build plain_env clockless_mutex
                               (initial_world release_build)))) = 0%nat).
Proof. repeat split. Qed.

Lemma Lock_sample_count_witness :
  List.length
    (samples_of (performed (Lock release_build plain_env db_mutex
                              (initial_world release_build)))) = 1%nat.
Proof.
  apply (proj1 (Lock_sample_count release_build plain_env db_mutex
                  (initial_world release_build))).
  split; [reflexivity |]. split; [discriminate |].
  exists detailed_stats. split; reflexivity.
Defined.

Lemma Lock_measures_iff_witness :
  In (EvTimerStart db_mutex_lock_nanos)
    (performed (Lock release_build plain_env db_mutex
                  (initial_world release_build))).
Proof.
  apply (proj1 (Lock_measures_iff release_build plain_env db_mutex
                  (initial_world release_build))).
  split; [reflexivity |]. split; [discriminate |]. split; [discriminate |].
  exists detailed_stats. split; reflexivity.
Defined.

Lemma Lock_coerces_context_switch_witness :
  let done := performed (Lock chaos_build plain_env db_mutex
                           (initial_world chaos_build)) in
  filter is_perturbation (before_raw_lock done)
  = [EvSignalAll 9; EvSleep (9 * 1000)] /\
  filter is_raw_lock done = [EvMutexLock 3] /\
  filter is_perturbation done
  = filter is_perturbation (before_raw_lock done) /\
  0 <= 9 * 1000 <= 10 * 1000.
Proof.
  apply (Lock_coerces_context_switch chaos_build plain_env db_mutex
           (initial_world chaos_build)).
  vm_compute. split; [discriminate | reflexivity].
Defined.

End InstrumentedRuns.

(* ================================================================== *)
(** * Further properties of the atomic wrappers *)
(* ================================================================== *)

Section AtomicCompositions.

Import Atomic.

Context {T : Type} `{AtomicValue T}.

Ltac unfold_cas :=
  unfold cas, CasWeakRelaxed, CasStrongRelaxed, CasWeak, CasStrong,
    compare_exchange_weak, compare_exchange_strong, lift_cas, cas_ok,
    cas_expected, cas_cell, LoadRelaxed, atomic_load, RelaxedAtomic_new;
  simpl.

(** A compare-and-swap that is not flagged to fail spuriously, on a cell
    holding the expected value. *)
Lemma cas_steady_hit (how : CasMethod) (d : T) (c : RelaxedAtomic T) :
  method_spurious how = false ->
  cas how (LoadRelaxed c) d c = (true, LoadRelaxed c, RelaxedAtomic_new d).
Proof.
  destruct c as [[x]]. destruct how as [sp | | sp |]; simpl; intros steady;
    try subst sp; unfold_cas; rewrite t_eqb_refl; reflexivity.
Qed.

(** X1: a compare-and-swap of either class, weak or strong, returns true
    only if the cell held [expected] and the attempt did not fail
    spuriously; the cell then holds [desired] and [expected] is as the
    caller passed it. *)
Theorem cas_success_means_equal (how : CasMethod) (expected desired : T)
    (c : RelaxedAtomic T) :
  cas_ok (cas how expected desired c) = true ->
  LoadRelaxed c = expected /\
  method_spurious how = false /\
  cas_expected (cas how expected desired c) = expected /\
  LoadRelaxed (cas_cell (cas how expected desired c)) = desired.
Proof.
  destruct c as [[x]].
  destruct how as [sp | | sp |]; try destruct sp; unfold_cas;
    rewrite ?andb_true_r, ?andb_false_r;
    destruct (t_eqb_spec x expected) as [same | differ]; simpl;
    intros ok; try discriminate ok; repeat split; assumption.
Qed.

(** X2: after a compare-and-swap that returned false, by whichever method,
    a second attempt that takes the written-back [expected] and does not
    fail spuriously succeeds and installs its desired value. *)
Theorem cas_retry_after_failure (how again : CasMethod)
    (expected desired desired' : T) (c : RelaxedAtomic T) :
  cas_ok (cas how expected desired c) = false ->
  method_spurious again = false ->
  let first := cas how expected desired c in
  cas again (cas_expected first) desired' (cas_cell first)
  = (true, LoadRelaxed c, RelaxedAtomic_new desired').
Proof.
  intros failed steady first. subst first.
  rewrite (cas_failed _ _ _ _ failed).
  unfold cas_expected, cas_cell; simpl.
  now apply cas_steady_hit.
Qed.

(** X3: on a cell that holds [expected], weak compare-and-swaps that fail
    spuriously change nothing, however many there are, and the first one
    that does not fail spuriously succeeds: a retry loop needs one attempt
    more than there are spurious failures. *)
Theorem weak_cas_retries_converge (n : nat) (expected desired : T)
    (c : RelaxedAtomic T) :
  LoadRelaxed c = expected ->
  run (repeat (OpCasWeak true expected desired) n
       ++ [OpCasWeak false expected desired]) c
  = repeat (RetCas false expected, expected) n
    ++ [(RetCas true expected, desired)].
Proof.
  intros holds. destruct c as [[x]].
  unfold LoadRelaxed, atomic_load in holds; simpl in holds. subst x.
  induction n as [| n IH]; simpl.
  - unfold CasWeakRelaxed. rewrite compare_exchange_weak_steady.
    unfold compare_exchange_strong; simpl. rewrite t_eqb_refl. reflexivity.
  - assert (stays : CasWeakRelaxed true expected desired
                      (mk_RelaxedAtomic (mk_atomic expected))
                    = (false, expected,
                       mk_RelaxedAtomic (mk_atomic expected))).
    { unfold CasWeakRelaxed. now rewrite compare_exchange_weak_spurious. }
    rewrite stays. unfold cas_ok, cas_expected, cas_cell; simpl.
    now rewrite IH.
Qed.

End AtomicCompositions.

Section UnsignedCells.

Import Atomic.

Variable w : Z.

Local Notation "'U'" := (uint_AtomicValue w).

Lemma representable_modulus (z : Z) : representable w z -> 0 < 2 ^ w.
Proof. unfold representable. lia. Qed.

Lemma wrap_representable (z : Z) : 0 < 2 ^ w -> representable w (wrap w z).
Proof. intros pos. unfold representable, wrap. now apply Z.mod_pos_bound. Qed.

Lemma log2_representable (z : Z) :
  0 < 2 ^ w -> 0 <= z -> (z = 0 \/ Z.log2 z < w) -> representable w z.
Proof.
  intros pos nonneg small. unfold representable. split; [exact nonneg |].
  destruct (Z.eq_dec z 0) as [-> | nz]; [exact pos |].
  apply Z.log2_lt_pow2; [lia |]. destruct small; [contradiction | assumption].
Qed.

Lemma representable_log2 (z : Z) :
  representable w z -> z = 0 \/ Z.log2 z < w.
Proof.
  intros [nonneg below]. destruct (Z.eq_dec z 0) as [-> | nz]; [now left |].
  right. apply Z.log2_lt_pow2; lia.
Qed.

Lemma land_representable (a b : Z) :
  representable w a -> representable w b -> representable w (Z.land a b).
Proof.
  intros ra rb. assert (pos := representable_modulus _ ra).
  assert (la := representable_log2 _ ra).
  destruct ra as [na _], rb as [nb _].
  apply log2_representable; [exact pos | apply Z.land_nonneg; now left |].
  destruct la as [-> | la]; [left; apply Z.land_0_l |].
  right. pose proof (Z.log2_land a b na nb). lia.
Qed.

Lemma lor_representable (a b : Z) :
  representable w a -> representable w b -> representable w (Z.lor a b).
Proof.
  intros ra rb. assert (pos := representable_modulus _ ra).
  assert (la := representable_log2 _ ra).
  assert (lb := representable_log2 _ rb).
  destruct ra as [na _], rb as [nb _].
  apply log2_representable; [exact pos | now apply Z.lor_nonneg |].
  destruct la as [-> | la]; [rewrite Z.lor_0_l; exact lb |].
  destruct lb as [-> | lb]; [rewrite Z.lor_0_r; now right |].
  right. rewrite (Z.log2_lor a b na nb). lia.
Qed.

Lemma lxor_representable (a b : Z) :
  representable w a -> representable w b -> representable w (Z.lxor a b).
Proof.
  intros ra rb. assert (pos := representable_modulus _ ra).
  assert (la := representable_log2 _ ra).
  assert (lb := representable_log2 _ rb).
  destruct ra as [na _], rb as [nb _].
  apply log2_representable; [exact pos | apply Z.lxor_nonneg; tauto |].
  destruct la as [-> | la]; [rewrite Z.lxor_0_l; exact lb |].
  destruct lb as [-> | lb]; [rewrite Z.lxor_0_r; now right |].
  right. pose proof (Z.log2_lxor a b na nb). lia.
Qed.

Ltac handed :=
  repeat first [apply Forall_nil | apply Forall_cons; [assumption |]].

(** One call keeps a cell of [w] bits within its range, and hands back
    values of the range. *)
Lemma call_representable (op : Op Z) (c : RelaxedAtomic Z) :
  representable w (LoadRelaxed c) ->
  Forall (representable w) (op_arguments op) ->
  representable w (LoadRelaxed (snd (call (H := U) op c))) /\
  Forall (representable w) (ret_values (fst (call (H := U) op c))).
Proof.
  destruct c as [[x]]. unfold LoadRelaxed, atomic_load; simpl.
  intros rx args. assert (pos := representable_modulus _ rx).
  destruct op as [d | | d | o | o | o | o | o | sp e d | e d]; simpl in *;
    repeat match goal with
      | A : Forall _ (_ :: _) |- _ => inversion_clear A
      end.
  - split; [assumption | handed].
  - split; [assumption | handed].
  - split; [assumption | handed].
  - split; [now apply wrap_representable | handed].
  - split; [now apply wrap_representable | handed].
  - split; [now apply land_representable | handed].
  - split; [now apply lor_representable | handed].
  - split; [now apply lxor_representable | handed].
  - unfold CasWeakRelaxed, compare_exchange_weak; simpl.
    destruct (x =? e), sp; simpl;
      (split; [assumption | handed]).
  - unfold CasStrongRelaxed, compare_exchange_strong; simpl.
    destruct (x =? e); simpl;
      (split; [assumption | handed]).
Qed.

(** X4: on an unsigned cell of [w] bits, a fetch-add followed by a
    fetch-sub of the same operand puts the cell back as it was, also when
    the addition wrapped around; the first call returns the original value
    and the second the wrapped sum. *)
Theorem fetch_add_then_sub_restores (operand : Z) (c : RelaxedAtomic Z) :
  representable w (LoadRelaxed c) ->
  let added := FetchAddRelaxed (H := U) operand c in
  let back := FetchSubRelaxed (H := U) operand (snd added) in
  fst added = LoadRelaxed c /\
  fst back = wrap w (LoadRelaxed c + operand) /\
  snd back = c.
Proof.
  destruct c as [[x]]. unfold LoadRelaxed, atomic_load; simpl.
  intros rx. repeat split.
  unfold FetchSubRelaxed, FetchAddRelaxed, fetch_sub, fetch_add, fetch_op;
    simpl.
  do 2 f_equal. unfold wrap. rewrite Zminus_mod_idemp_l.
  replace (x + operand - operand) with x by lia.
  now apply Z.mod_small.
Qed.

(** X5: on a cell used as a set of flags, a fetch-xor applied twice with
    the same mask restores the cell; a fetch-or (fetch-and) repeated with
    the same mask changes nothing the second time, and what the second call
    returns has every bit of the mask set (no bit outside the mask set). *)
Theorem fetch_bit_ops_compose (mask : Z) (c : RelaxedAtomic Z) :
  let xor1 := FetchXorRelaxed (H := U) mask c in
  let or1 := FetchOrRelaxed (H := U) mask c in
  let and1 := FetchAndRelaxed (H := U) mask c in
  snd (FetchXorRelaxed (H := U) mask (snd xor1)) = c /\
  (snd (FetchOrRelaxed (H := U) mask (snd or1)) = snd or1 /\
   Z.land (fst (FetchOrRelaxed (H := U) mask (snd or1))) mask = mask) /\
  (snd (FetchAndRelaxed (H := U) mask (snd and1)) = snd and1 /\
   Z.lor (fst (FetchAndRelaxed (H := U) mask (snd and1))) mask = mask).
Proof.
  destruct c as [[x]]. cbv zeta.
  unfold FetchXorRelaxed, FetchOrRelaxed, FetchAndRelaxed, fetch_xor,
    fetch_or, fetch_and, fetch_op; simpl.
  split; [| split; split].
  - do 2 f_equal. now rewrite Z.lxor_assoc, Z.lxor_nilpotent, Z.lxor_0_r.
  - do 2 f_equal. now rewrite <- Z.lor_assoc, Z.lor_diag.
  - apply Z.bits_inj. intros i. rewrite Z.land_spec, Z.lor_spec.
    destruct (Z.testbit x i), (Z.testbit mask i); reflexivity.
  - do 2 f_equal. now rewrite <- Z.land_assoc, Z.land_diag.
  - apply Z.bits_inj. intros i. rewrite Z.lor_spec, Z.land_spec.
    destruct (Z.testbit x i), (Z.testbit mask i); reflexivity.
Qed.

(** X6: an unsigned cell of [w] bits that starts within its range stays
    within it under any program whose arguments are of the range: the value
    observed after every call, and every value a call hands back, is at
    least 0 and below 2^w. *)
Theorem unsigned_cell_stays_representable (ops : list (Op Z)) :
  forall c : RelaxedAtomic Z,
  representable w (LoadRelaxed c) ->
  Forall (fun op => Forall (representable w) (op_arguments op)) ops ->
  Forall (fun seen => representable w (snd seen) /\
                      Forall (representable w) (ret_values (fst seen)))
    (run (H := U) ops c).
Proof.
  induction ops as [| op rest IH]; intros c rc args; simpl; [constructor |].
  inversion_clear args as [| ? ? here later].
  destruct (call_representable op c rc here) as [cell handed].
  destruct (call (H := U) op c) as [r c'] eqn:step. simpl in cell, handed.
  constructor; [split; assumption | now apply IH].
Qed.

End UnsignedCells.

(* ================================================================== *)
(** * Further properties of the instrumented mutex and condition variable *)
(* ================================================================== *)

Section CallShapes.

Import Instrumented.

Variable P : Platform.
Variable E : Env.

(** X7: [stats_for_report] never hands back another sink than the one it
    was given, and only with a clock and a level strictly above
    [kExceptTimeForMutex]: a sink exactly at the threshold is not reported,
    one a level higher is; applying it to its own result changes
    nothing. *)
Theorem stats_for_report_threshold (clock : option SystemClock)
    (stats : option Statistics) :
  (forall s, stats_for_report P clock stats = Some s ->
     stats = Some s /\ clock <> None /\
     kExceptTimeForMutex P < get_stats_level s) /\
  (forall k s, get_stats_level s = kExceptTimeForMutex P ->
     stats_for_report P (Some k) (Some s) = None) /\
  (forall k s, get_stats_level s = kExceptTimeForMutex P + 1 ->
     stats_for_report P (Some k) (Some s) = Some s) /\
  stats_for_report P clock (stats_for_report P clock stats)
  = stats_for_report P clock stats.
Proof.
  unfold stats_for_report. split; [| split; [| split]].
  - intros s reported.
    destruct clock as [k0 |], stats as [s0 |]; try discriminate.
    destruct (Z.gtb_spec (get_stats_level s0) (kExceptTimeForMutex P));
      try discriminate.
    injection reported as <-. split; [reflexivity |].
    split; [discriminate | lia].
  - intros k s at_threshold. rewrite at_threshold, Z.gtb_ltb, Z.ltb_irrefl.
    reflexivity.
  - intros k s above.
    destruct (Z.gtb_spec (get_stats_level s) (kExceptTimeForMutex P));
      [reflexivity | lia].
  - destruct clock as [k0 |], stats as [s0 |]; try reflexivity.
    destruct (get_stats_level s0 >? kExceptTimeForMutex P) eqn:lv;
      [now rewrite lv | reflexivity].
Qed.

(** X8: in every build, under every tag and configuration and whatever the
    generator holds, [Lock] proper is the debug build's notification
    followed by one acquisition of the lock's own raw mutex: it acquires
    it exactly once, and it neither waits on a condition variable nor
    passes a sync point. *)
Theorem Lock_acquires_once (m : InstrumentedMutex) (w : World P) :
  core_of (performed (Lock P E m w))
  = state_delay_events P ++ [EvMutexLock (mutex_ m)].
Proof.
  rewrite Lock_performed, LockInternal_performed.
  unfold core_of, state_delay_events, signal_group.
  destruct (guard_sink P (stats_code_ m) (clock_ m) (stats_ m)),
    (NDEBUG P), (COERCE_CONTEXT_SWITCH P),
    (stats_code_ m =? DB_MUTEX_WAIT_MICROS P), (fst (OneIn P 2 (rnd w))),
    (bg_cv_ m); reflexivity.
Qed.

Lemma WaitInternal_final (cv : InstrumentedCondVar) (w : World P) :
  rnd (final (WaitInternal P E cv w)) = rnd w.
Proof.
  unfold WaitInternal, port_CondVar_Wait, TEST_StateDelay, when, bind, ret,
    emit, elapse, now, final.
  destruct (NDEBUG P); reflexivity.
Qed.

Lemma TimedWaitInternal_final (cv : InstrumentedCondVar) (abs : Z)
    (w : World P) :
  rnd (final (TimedWaitInternal P E cv abs w)) = rnd w.
Proof.
  unfold TimedWaitInternal, port_CondVar_TimedWait, TEST_SYNC_POINT_CALLBACK,
    TEST_StateDelay, when, bind, ret, emit, elapse, now, final.
  destruct (NDEBUG P); simpl;
    destruct (timed_wait_outcome E (now_nanos w) _); reflexivity.
Qed.

(** X9: the scheduling perturbation is [Lock]'s alone.  In every build,
    [Wait] performs, besides its measurement, the debug build's
    notification and one wait on its own condition variable, and
    [TimedWait] the notification, the sync point where test instrumentation
    is compiled in, and one timed wait; neither signals, yields, sleeps or
    takes a raw lock, and neither draws from the thread's generator. *)
Theorem waits_are_never_perturbed (cv : InstrumentedCondVar)
    (abs_time_us : Z) (w : World P) :
  let name := "InstrumentedCondVar::TimedWaitInternal"%string in
  let deadline :=
    if NDEBUG P then abs_time_us
    else match sync_point_callback E name with
         | Some callback => callback abs_time_us
         | None => abs_time_us
         end in
  (primitives_of (performed (Wait P E cv w))
   = state_delay_events P ++ [EvCondWait (cond_ cv)] /\
   rnd (final (Wait P E cv w)) = rnd w) /\
  (primitives_of (performed (TimedWait P E cv abs_time_us w))
   = state_delay_events P
     ++ (if NDEBUG P then [] else [EvSyncPoint name abs_time_us])
     ++ [EvCondTimedWait (cond_ cv) deadline] /\
   rnd (final (TimedWait P E cv abs_time_us w)) = rnd w).
Proof.
  intros name deadline. split.
  - destruct (timer_guard_transparent P db_condition_wait_nanos
                (cv_stats_code_ cv) (cv_clock_ cv) (cv_stats_ cv) _ w
                (WaitInternal_primitive P E cv w)) as (p & f & _).
    fold (Wait P E cv) in p, f.
    rewrite p, f, WaitInternal_performed, WaitInternal_final. now split.
  - destruct (timer_guard_transparent P db_condition_wait_nanos
                (cv_stats_code_ cv) (cv_clock_ cv) (cv_stats_ cv) _ w
                (TimedWaitInternal_primitive P E cv abs_time_us w))
      as (p & f & _).
    fold (TimedWait P E cv abs_time_us) in p, f.
    rewrite p, f, TimedWaitInternal_final.
    rewrite (proj1 (TimedWaitInternal_run P E cv abs_time_us w)). now split.
Qed.

(** X10: in a build without the context-switch coercion, and in any build
    for a lock whose tag is not [DB_MUTEX_WAIT_MICROS], [LockInternal] is
    the debug build's notification and the acquisition of the raw mutex and
    nothing else: it leaves the generator as it was and takes the time the
    raw lock blocks. *)
Theorem LockInternal_plain (m : InstrumentedMutex) (w : World P) :
  COERCE_CONTEXT_SWITCH P = false \/
  stats_code_ m <> DB_MUTEX_WAIT_MICROS P ->
  LockInternal P E m w
  = (tt,
     {| now_nanos := now_nanos w + mutex_block_nanos E (now_nanos w);
        rnd := rnd w |},
     state_delay_events P ++ [EvMutexLock (mutex_ m)]).
Proof.
  intros ungated.
  assert (off : COERCE_CONTEXT_SWITCH P
                && (stats_code_ m =? DB_MUTEX_WAIT_MICROS P) = false).
  { destruct ungated as [no | other]; [now rewrite no |].
    apply andb_false_iff. right. now apply Z.eqb_neq. }
  unfold LockInternal, port_Mutex_Lock, TEST_StateDelay, when, bind, ret,
    emit, elapse, now, state_delay_events.
  destruct (NDEBUG P), (COERCE_CONTEXT_SWITCH P),
    (stats_code_ m =? DB_MUTEX_WAIT_MICROS P); try discriminate off;
    destruct w; reflexivity.
Qed.

(** X11: [LockInternal] draws from the thread's generator only in the build
    with the coercion, for a lock tagged [DB_MUTEX_WAIT_MICROS]: once, for
    [OneIn(2)], when it yields, and a second time, for [Uniform(11)], when
    it sleeps.  Otherwise the generator is left as it was. *)
Theorem LockInternal_generator (m : InstrumentedMutex) (w : World P) :
  rnd (final (LockInternal P E m w))
  = if COERCE_CONTEXT_SWITCH P
       && (stats_code_ m =? DB_MUTEX_WAIT_MICROS P)
    then
      if fst (OneIn P 2 (rnd w)) then snd (OneIn P 2 (rnd w))
      else snd (Uniform P 11 (snd (OneIn P 2 (rnd w))))
    else rnd w.
Proof.
  unfold LockInternal, port_Mutex_Lock, port_CondVar_SignalAll, SignalAll,
    TEST_StateDelay, sched_yield, SleepForMicroseconds, when, bind, ret,
    emit, elapse, now, draw, final.
  destruct (NDEBUG P), (COERCE_CONTEXT_SWITCH P),
    (stats_code_ m =? DB_MUTEX_WAIT_MICROS P); simpl; try reflexivity;
    destruct (OneIn P 2 (rnd w)) as [[|] g1]; simpl;
    try destruct (Uniform P 11 g1) as [u g2]; simpl;
    destruct (bg_cv_ m); reflexivity.
Qed.

End CallShapes.

(* ================================================================== *)
(** * Further runs *)
(* ================================================================== *)

Section FurtherRuns.

Import Atomic Instrumented Demo.

Lemma cas_success_means_equal_witness :
  LoadRelaxed (RelaxedAtomic_new 3) = 3 /\
  method_spurious (ViaCasWeak false) = false /\
  cas_expected (cas (ViaCasWeak false) 3 8 (RelaxedAtomic_new 3)) = 3 /\
  LoadRelaxed (cas_cell (cas (ViaCasWeak false) 3 8 (RelaxedAtomic_new 3)))
  = 8.
Proof.
  apply (cas_success_means_equal (ViaCasWeak false) 3 8
           (RelaxedAtomic_new 3)).
  reflexivity.
Defined.

Lemma cas_retry_after_failure_witness :
  cas ViaCasStrong
    (cas_expected (cas (ViaCasWeakRelaxed false) 4 8 (RelaxedAtomic_new 3)))
    9 (cas_cell (cas (ViaCasWeakRelaxed false) 4 8 (RelaxedAtomic_new 3)))
  = (true, 3, RelaxedAtomic_new 9).
Proof.
  apply (cas_retry_after_failure (ViaCasWeakRelaxed false) ViaCasStrong 4 8 9
           (RelaxedAtomic_new 3)); reflexivity.
Defined.

Lemma weak_cas_retries_converge_witness :
  run (repeat (OpCasWeak true 3 8) 2 ++ [OpCasWeak false 3 8])
      (RelaxedAtomic_new 3)
  = repeat (RetCas false 3, 3) 2 ++ [(RetCas true 3, 8)].
Proof.
  apply (weak_cas_retries_converge 2 3 8 (RelaxedAtomic_new 3)).
  reflexivity.
Defined.

Lemma fetch_add_then_sub_restores_witness :
  let c := RelaxedAtomic_new 4294967295 in
  let added := FetchAddRelaxed (H := uint_AtomicValue 32) 2 c in
  let back := FetchSubRelaxed (H := uint_AtomicValue 32) 2 (snd added) in
  fst added = 4294967295 /\ fst back = wrap 32 (4294967295 + 2) /\
  snd back = c.
Proof.
  apply (fetch_add_then_sub_restores 32 2 (RelaxedAtomic_new 4294967295)).
  vm_compute. split; [discriminate | reflexivity].
Defined.

Lemma unsigned_cell_stays_representable_witness :
  Forall (fun seen => representable 8 (snd seen) /\
                      Forall (representable 8) (ret_values (fst seen)))
    (run (H := uint_AtomicValue 8)
       [OpStore 250; OpFetchAdd 9; OpFetchSub 20; OpFetchXor 255]
       (RelaxedAtomic_new 0)).
Proof.
  apply (unsigned_cell_stays_representable 8
           [OpStore 250; OpFetchAdd 9; OpFetchSub 20; OpFetchXor 255]
           (RelaxedAtomic_new 0)).
  - vm_compute. split; [discriminate | reflexivity].
  - repeat first [apply Forall_nil | apply Forall_cons];
      vm_compute; split; first [discriminate | reflexivity].
Defined.

Example wrapping_program :
  run (H := uint_AtomicValue 8)
    [OpStore 250; OpFetchAdd 9; OpFetchSub 20; OpFetchXor 255]
    (RelaxedAtomic_new 0)
  = [(RetVoid, 250); (RetValue 250, 3); (RetValue 3, 239);
     (RetValue 239, 16)].
Proof. reflexivity. Qed.

Lemma LockInternal_plain_witness :
  LockInternal chaos_build plain_env other_mutex (initial_world chaos_build)
  = (tt, Build_World chaos_build 700 301,
     [EvStateDelay STATE_MUTEX_WAIT; EvMutexLock 4]).
Proof.
  apply (LockInternal_plain chaos_build plain_env other_mutex
           (initial_world chaos_build)).
  right. discriminate.
Defined.

End FurtherRuns.
